(** * Helix test reporter: grouping of data-driven results and attachment
      re-association

    A shallow embedding of [AzureDevOpsTestResultPublisher]
    (reporter/azure_devops_result_publisher.py): [convert_results] folds a
    flat list of test results into parent nodes with sub-results, and
    [publish_results] pairs attachments with the rows echoed by the service.

    Conventions of the embedding.
    - A Python value that may be [None] is an [option].
    - [data_driven_tests] is a Python dict whose [values()] order is
      observable (insertion order), so it is an association list that keeps
      insertion order; [test_name_ordering] and [results_with_attachments]
      are only looked up by key and are [gmap]s.
    - [log] calls are kept as a list of entries, the calls on the test
      client as a trace.
    - [duration_seconds] is a Python float; no property below depends on
      its arithmetic and it is carried as a rational. *)

From Stdlib Require Import Ascii QArith.
From stdpp Require Import base option list strings gmap pretty.

Local Open Scope Z_scope.

(** ** Python strings *)

(** [str(x)] / [text(x)] of a value that is a string or [None]. *)
Definition text (x : option string) : string :=
  match x with
  | Some s => s
  | None => "None"
  end.

(** [s.endswith(suffix)]: some tail of [s] is [suffix]. *)
Fixpoint endswith (s suffix : string) : bool :=
  String.eqb s suffix ||
  match s with
  | EmptyString => false
  | String _ s' => endswith s' suffix
  end.

(** [s.split(sep, 1)] for a one-character separator: the text before the
    first separator and, when there is one, the text after it. *)
Fixpoint split1 (sep : ascii) (s : string) : list string :=
  match s with
  | EmptyString => [EmptyString]
  | String c s' =>
      if Ascii.eqb c sep then [EmptyString; s']
      else match split1 sep s' with
           | h :: t => String c h :: t
           | [] => [String c EmptyString]
           end
  end.

Definition dquote : string := String (ascii_of_nat 34) EmptyString.

(** ** Logging *)

Inductive level := DEBUG | WARNING.

Definition log_entry : Type := level * string.

(** ** Data model *)

Module TestResultAttachment.
(** Modelled from the spec: class [TestResultAttachment] of module [defs]
    (constructed in formats/junit.py with keywords [name] and [text]). The
    text is the [.text] of an XML element there, which is [None] for an
    element without text. *)
Record t := mk { name : string; text : option string }.
End TestResultAttachment.

Module TestResult.
(** Modelled from the spec: class [TestResult] of module [defs]; the fields
    are the constructor arguments used in formats/junit.py, in order. *)
Record t := mk {
  name : string;
  kind : string;
  type_name : string;
  method : string;
  duration_seconds : Q;
  result : string;
  exception_type : option string;
  failure_message : option string;
  stack_trace : option string;
  skip_reason : option string;
  attachments : list TestResultAttachment.t
}.
End TestResult.

Module TestSubResult.
(** The fields of the service model [TestSubResult] that the publisher
    writes or reads; a field that is not given to the constructor is
    [None]. *)
Record t := mk {
  comment : string;
  display_name : string;
  duration_in_ms : Q;
  outcome : string;
  stack_trace : option string;
  error_message : option string;
  id : option Z
}.
End TestSubResult.

Module TestCaseResult.
(** The fields of the service model [TestCaseResult] that the publisher
    writes or reads. *)
Record t := mk {
  test_case_title : string;
  automated_test_name : string;
  automated_test_type : string;
  automated_test_storage : string;
  priority : Z;
  duration_in_ms : Q;
  outcome : string;
  state : string;
  error_message : option string;
  stack_trace : option string;
  comment : string;
  result_group_type : option string;
  sub_results : option (list TestSubResult.t);
  id : option Z
}.

Definition set_automated_test_name (v : string) (n : t) : t :=
  mk (test_case_title n) v (automated_test_type n)
     (automated_test_storage n) (priority n) (duration_in_ms n) (outcome n)
     (state n) (error_message n) (stack_trace n) (comment n)
     (result_group_type n) (sub_results n) (id n).

Definition set_result_group_type (v : option string) (n : t) : t :=
  mk (test_case_title n) (automated_test_name n) (automated_test_type n)
     (automated_test_storage n) (priority n) (duration_in_ms n) (outcome n)
     (state n) (error_message n) (stack_trace n) (comment n)
     v (sub_results n) (id n).

Definition set_sub_results (v : option (list TestSubResult.t)) (n : t) : t :=
  mk (test_case_title n) (automated_test_name n) (automated_test_type n)
     (automated_test_storage n) (priority n) (duration_in_ms n) (outcome n)
     (state n) (error_message n) (stack_trace n) (comment n)
     (result_group_type n) v (id n).

Definition set_outcome (v : string) (n : t) : t :=
  mk (test_case_title n) (automated_test_name n) (automated_test_type n)
     (automated_test_storage n) (priority n) (duration_in_ms n) v
     (state n) (error_message n) (stack_trace n) (comment n)
     (result_group_type n) (sub_results n) (id n).
End TestCaseResult.

(** ** Insertion-ordered dictionary ([data_driven_tests]) *)

Section odict.
Context {V : Type}.

Definition odict : Type := list (string * V).

Fixpoint od_get (k : string) (d : odict) : option V :=
  match d with
  | [] => None
  | (k', v) :: d' => if String.eqb k k' then Some v else od_get k d'
  end.

(** [k in d] *)
Definition od_mem (k : string) (d : odict) : bool :=
  match od_get k d with Some _ => true | None => false end.

(** [d[k] = v]: an existing key keeps its position, a new key goes last. *)
Fixpoint od_set (k : string) (v : V) (d : odict) : odict :=
  match d with
  | [] => [(k, v)]
  | (k', v') :: d' =>
      if String.eqb k k' then (k', v) :: d' else (k', v') :: od_set k v d'
  end.

(** In-place mutation of the object stored under [k]. *)
Fixpoint od_alter (f : V → V) (k : string) (d : odict) : odict :=
  match d with
  | [] => []
  | (k', v') :: d' =>
      if String.eqb k k' then (k', f v') :: d' else (k', v') :: od_alter f k d'
  end.

(** [d.keys()] and [d.values()] *)
Definition od_keys (d : odict) : list string := d.*1.
Definition od_values (d : odict) : list V := d.*2.

End odict.
Arguments odict V : clear implicits.

(** ** The publisher *)

(** The attributes of [self] that the two methods read. *)
Record self_t := {
  team_project : string;
  test_run_id : option Z;
  work_item_name : string
}.

(** The two environment variables read by [convert_results];
    [os.getenv] gives [None] for a variable that is not set. *)
Record environ := {
  HELIX_CORRELATION_ID : option string;
  HELIX_WORKITEM_FRIENDLYNAME : option string
}.

(** A call on the service's test client, with the arguments it is given. *)
Inductive client_call :=
| create_test_result_attachment
    (file_name stream project : string) (run_id result_id : option Z)
| create_test_sub_result_attachment
    (file_name stream project : string) (run_id result_id sub_result_id : option Z).

(** What [publish_results] does, in order. *)
Inductive effect :=
| Log (e : log_entry)
| Call (c : client_call).

(** The exceptions that the body of [publish_results] itself can raise:
    [KeyError] from the lookup in the ordering index, [TypeError] from the
    encoding of an attachment without text. *)
Inductive exn := KeyError (key : string) | TypeError.

(** State of the [for] loop of [convert_results]. *)
Record loop_state := {
  data_driven_tests : odict TestCaseResult.t;
  non_data_driven_tests : list (option TestCaseResult.t);
  test_name_ordering : gmap string (list string);
  log : list log_entry
}.

Section publisher.
Context (self : self_t) (env : environ).
(** [base64.b64encode] followed by decoding to text. *)
Context (b64encode : string → string).
(** The service call that submits the batch; its answer is not determined
    by this program. *)
Context (add_test_results_to_test_run :
  list (option TestCaseResult.t) → string → option Z → list TestCaseResult.t).

Definition is_data_driven_test (r : string) : bool := endswith r ")".

Definition get_ddt_base_name (r : string) : string :=
  default EmptyString (head (split1 "(" r)).

Definition comment : string :=
  "{ " +:+ dquote +:+ "HelixJobId" +:+ dquote +:+ ": " +:+ dquote
  +:+ text (HELIX_CORRELATION_ID env) +:+ dquote +:+ ", " +:+ dquote
  +:+ "HelixWorkItemName" +:+ dquote +:+ ": " +:+ dquote
  +:+ text (HELIX_WORKITEM_FRIENDLYNAME env) +:+ dquote +:+ " }".

Definition unexpected_result (r : TestResult.t) : log_entry :=
  (WARNING, "Unexpected result value " +:+ TestResult.result r
            +:+ " for " +:+ TestResult.name r).

Definition duration_ms (r : TestResult.t) : Q :=
  (TestResult.duration_seconds r * inject_Z 1000)%Q.

(** The returned value and the log entries written on the way.
    [text(r.stack_trace) if r.stack_trace is not None else None] is the
    stack trace itself. *)
Definition convert_to_sub_test (r : TestResult.t)
  : option TestSubResult.t * list log_entry :=
  if String.eqb (TestResult.result r) "Pass" then
    (Some (TestSubResult.mk comment (TestResult.name r) (duration_ms r)
             "Passed" None None None), [])
  else if String.eqb (TestResult.result r) "Fail" then
    (Some (TestSubResult.mk comment (TestResult.name r) (duration_ms r)
             "Failed" (TestResult.stack_trace r)
             (Some (text (TestResult.failure_message r))) None), [])
  else if String.eqb (TestResult.result r) "Skip" then
    (Some (TestSubResult.mk comment (TestResult.name r) (duration_ms r)
             "NotExecuted" None None None), [])
  else (None, [unexpected_result r]).

Definition convert_result (r : TestResult.t)
  : option TestCaseResult.t * list log_entry :=
  if String.eqb (TestResult.result r) "Pass" then
    (Some (TestCaseResult.mk (TestResult.name r) (TestResult.name r)
             (TestResult.kind r) (work_item_name self) 1 (duration_ms r)
             "Passed" "Completed" None None comment None None None), [])
  else if String.eqb (TestResult.result r) "Fail" then
    (Some (TestCaseResult.mk (TestResult.name r) (TestResult.name r)
             (TestResult.kind r) (work_item_name self) 1 (duration_ms r)
             "Failed" "Completed"
             (Some (text (TestResult.failure_message r)))
             (TestResult.stack_trace r) comment None None None), [])
  else if String.eqb (TestResult.result r) "Skip" then
    (Some (TestCaseResult.mk (TestResult.name r) (TestResult.name r)
             (TestResult.kind r) (work_item_name self) 1 (duration_ms r)
             "NotExecuted" "Completed"
             (Some (text (TestResult.skip_reason r)))
             None comment None None None), [])
  else (None, [unexpected_result r]).

(** [data_driven_tests[base_name].sub_results.append(sub_test)] *)
Definition append_sub_result (s : TestSubResult.t) (n : TestCaseResult.t)
  : TestCaseResult.t :=
  TestCaseResult.set_sub_results
    ((λ l, l ++ [s]) <$> TestCaseResult.sub_results n) n.

(** The seed node of a group: the converted record with three attributes
    overwritten. *)
Definition seed_node (base_name : string) (cr : TestCaseResult.t)
  (csr : TestSubResult.t) : TestCaseResult.t :=
  TestCaseResult.set_sub_results (Some [csr])
    (TestCaseResult.set_result_group_type (Some "dataDriven")
       (TestCaseResult.set_automated_test_name base_name cr)).

Definition add_log (w : list log_entry) (st : loop_state) : loop_state :=
  {| data_driven_tests := data_driven_tests st;
     non_data_driven_tests := non_data_driven_tests st;
     test_name_ordering := test_name_ordering st;
     log := log st ++ w |}.

(** One iteration of the [for r in unconverted_results] loop.

    In the branch of a base name that is already a key,
    [test_name_ordering[base_name].append(...)] would raise [KeyError] on
    a missing entry and [.sub_results.append(...)] would fail on a node
    without a list. Neither can happen in a state the loop reaches
    ([inv_order_key] and [inv_group] below); [alter] and the map over the
    option leave such a state as it is. *)
Definition convert_step (st : loop_state) (r : option TestResult.t)
  : loop_state :=
  match r with
  | None => st
  | Some r =>
    if negb (is_data_driven_test (TestResult.name r)) then
      let '(cr, w) := convert_result r in
      {| data_driven_tests := data_driven_tests st;
         non_data_driven_tests := non_data_driven_tests st ++ [cr];
         test_name_ordering :=
           <[TestResult.name r := []]> (test_name_ordering st);
         log := log st ++ w |}
    else
      let base_name := get_ddt_base_name (TestResult.name r) in
      if od_mem base_name (data_driven_tests st) then
        let '(sub_test, w) := convert_to_sub_test r in
        match sub_test with
        | None => add_log w st
        | Some sub_test =>
          let d1 := od_alter (append_sub_result sub_test) base_name
                      (data_driven_tests st) in
          {| data_driven_tests :=
               if String.eqb (TestSubResult.outcome sub_test) "Failed"
               then od_alter (TestCaseResult.set_outcome "Failed") base_name d1
               else d1;
             non_data_driven_tests := non_data_driven_tests st;
             test_name_ordering :=
               alter (λ l, l ++ [TestResult.name r]) base_name
                 (test_name_ordering st);
             log := log st ++ w |}
        end
      else
        let '(cr, w1) := convert_result r in
        let '(csr, w2) := convert_to_sub_test r in
        match cr, csr with
        | Some cr, Some csr =>
          {| data_driven_tests :=
               od_set base_name (seed_node base_name cr csr)
                 (data_driven_tests st);
             non_data_driven_tests := non_data_driven_tests st;
             test_name_ordering :=
               <[base_name := [TestResult.name r]]> (test_name_ordering st);
             log := log st ++ w1 ++ w2 |}
        | _, _ => add_log (w1 ++ w2) st
        end
  end.

(** The state before the first iteration. *)
Definition initial_state (unconverted_results : list (option TestResult.t))
  : loop_state :=
  {| data_driven_tests := [];
     non_data_driven_tests := [];
     test_name_ordering := ∅;
     log := [(DEBUG, "Count of unconverted_results: "
                     +:+ pretty (length unconverted_results))] |}.

Definition run_from (st : loop_state) (rs : list (option TestResult.t))
  : loop_state :=
  fold_left convert_step rs st.

(** The state when the loop has consumed the whole input. *)
Definition convert_loop (results : list (option TestResult.t)) : loop_state :=
  run_from (initial_state results) results.

(** The returned pair: the node list and the ordering index. *)
Definition convert_results (results : list (option TestResult.t))
  : list (option TestCaseResult.t) * gmap string (list string) :=
  let st := convert_loop results in
  ((Some <$> od_values (data_driven_tests st)) ++ non_data_driven_tests st,
   test_name_ordering st).

(** *** Attachments *)

(** The call of [send_attachment], or the exception it raises. On a text
    the [try] branch fails ([b64encode] wants bytes) and the [except]
    branch encodes [bytes(text, "utf-8")]; on [None] the [except] branch
    raises [TypeError] itself, and nothing catches it. *)
Definition send_attachment (attachment : TestResultAttachment.t)
  (published_result : TestCaseResult.t) : effect + exn :=
  match TestResultAttachment.text attachment with
  | Some text =>
      inl (Call (create_test_result_attachment
                   (TestResultAttachment.name attachment) (b64encode text)
                   (team_project self) (test_run_id self)
                   (TestCaseResult.id published_result)))
  | None => inr TypeError
  end.

(** [bytes(attachment.text, "utf-8")] raises [TypeError] on [None]. *)
Definition send_sub_attachment (attachment : TestResultAttachment.t)
  (published_result : TestCaseResult.t) (sub_result_id : option Z)
  : effect + exn :=
  match TestResultAttachment.text attachment with
  | Some text =>
      inl (Call (create_test_sub_result_attachment
                   (TestResultAttachment.name attachment) (b64encode text)
                   (team_project self) (test_run_id self)
                   (TestCaseResult.id published_result) sub_result_id))
  | None => inr TypeError
  end.

(** A sequence of steps run in order: the effects of the steps before the
    first one that raises, and what that one raises. *)
Fixpoint until_raise (steps : list (effect + exn)) : list effect * option exn :=
  match steps with
  | [] => ([], None)
  | inl e :: rest => let '(t, x) := until_raise rest in (e :: t, x)
  | inr x :: _ => ([], Some x)
  end.

(** [{r.name: r for r in results if r is not None and r.attachments}] *)
Definition results_with_attachments (results : list (option TestResult.t))
  : gmap string TestResult.t :=
  fold_left
    (λ m r,
       match r with
       | Some r =>
           match TestResult.attachments r with
           | [] => m
           | _ :: _ => <[TestResult.name r := r]> m
           end
       | None => m
       end)
    results ∅.

Definition length_warning : log_entry :=
  (WARNING,
   "Returned subresults list length does not match expected. Attachments may not pair correctly.").

(** The guard [published_result.id == -1]. *)
Definition rejected (published_result : TestCaseResult.t) : bool :=
  bool_decide (TestCaseResult.id published_result = Some (-1)).

(** The body of the loop below the guard: the [if]/[elif] on the
    attachment map and the sub-results. *)
Definition handle_attachments (test_result_order : gmap string (list string))
  (rwa : gmap string TestResult.t) (published_result : TestCaseResult.t)
  : list effect * option exn :=
  let name := TestCaseResult.automated_test_name published_result in
  match rwa !! name with
  | Some result =>
      until_raise
        (inl (Log (DEBUG, "Result " +:+ name +:+ " has an attachment"))
         :: ((λ a, send_attachment a published_result)
               <$> TestResult.attachments result))
  | None =>
      match TestCaseResult.sub_results published_result with
      | None => ([], None)
      | Some sub_results =>
          match test_result_order !! name with
          | None => ([], Some (KeyError name))
          | Some sub_results_order =>
              until_raise
                ((if bool_decide
                       (length sub_results_order ≠ length sub_results)
                  then [inl (Log length_warning)] else [])
                 ++ flat_map
                      (λ '(name, sub_result),
                         match rwa !! name with
                         | Some result =>
                             (λ a, send_sub_attachment a published_result
                                     (TestSubResult.id sub_result))
                               <$> TestResult.attachments result
                         | None => []
                         end)
                      (zip sub_results_order sub_results))
          end
      end
  end.

(** One iteration of [for published_result in published_results]. *)
Definition publish_step (test_result_order : gmap string (list string))
  (rwa : gmap string TestResult.t) (published_result : TestCaseResult.t)
  : list effect * option exn :=
  if rejected published_result then ([], None)
  else handle_attachments test_result_order rwa published_result.

(** The loop: the effects in order, and the exception that ended it, if
    any. *)
Fixpoint publish_loop (test_result_order : gmap string (list string))
  (rwa : gmap string TestResult.t) (published_results : list TestCaseResult.t)
  : list effect * option exn :=
  match published_results with
  | [] => ([], None)
  | published_result :: rest =>
      match publish_step test_result_order rwa published_result with
      | (t, Some e) => (t, Some e)
      | (t, None) =>
          let '(t', e') := publish_loop test_result_order rwa rest in
          (t ++ t', e')
      end
  end.

Definition publish_results (test_case_results : list (option TestCaseResult.t))
  (test_result_order : gmap string (list string))
  (rwa : gmap string TestResult.t) : list effect * option exn :=
  publish_loop test_result_order rwa
    (add_test_results_to_test_run test_case_results
       (team_project self) (test_run_id self)).

(** [results] is traversed twice, once for the attachment map and once by
    [convert_results]; it is taken to be a list. *)
Definition upload_batch (results : list (option TestResult.t))
  : list effect * option exn :=
  let rwa := results_with_attachments results in
  let '(test_case_results, test_name_order) := convert_results results in
  publish_results test_case_results test_name_order rwa.

(** The published nodes for which the body below the guard runs. *)
Definition handled (published_results : list TestCaseResult.t)
  : list TestCaseResult.t :=
  filter (λ p, rejected p = false) published_results.

End publisher.

(** ** Vocabulary of the specification

    The definitions below follow the words of the specification; the
    theorems compare them with what the code computes. *)

(** The standard outcome table: Pass→Passed, Fail→Failed,
    Skip→NotExecuted. *)
Definition standard_table (result : string) : option string :=
  if String.eqb result "Pass" then Some "Passed"
  else if String.eqb result "Fail" then Some "Failed"
  else if String.eqb result "Skip" then Some "NotExecuted"
  else None.

(** The outcome value of the record is one of the three known ones. *)
Definition recognized (r : TestResult.t) : bool :=
  bool_decide (TestResult.result r ∈ ["Pass"; "Fail"; "Skip"]).

(** The records of the input, without the [None] entries. *)
Definition records (rs : list (option TestResult.t)) : list TestResult.t :=
  omap id rs.

(** The data-driven records of base name [base] with a recognized outcome,
    in input order. *)
Definition variants (base : string) (rs : list (option TestResult.t))
  : list TestResult.t :=
  filter (λ r, is_data_driven_test (TestResult.name r) = true
               ∧ get_ddt_base_name (TestResult.name r) = base
               ∧ recognized r = true) (records rs).

(** All data-driven records of base name [base], in input order. *)
Definition all_variants (base : string) (rs : list (option TestResult.t))
  : list TestResult.t :=
  filter (λ r, is_data_driven_test (TestResult.name r) = true
               ∧ get_ddt_base_name (TestResult.name r) = base) (records rs).

(** The records that are not data-driven, in input order. *)
Definition standalone (rs : list (option TestResult.t)) : list TestResult.t :=
  filter (λ r, is_data_driven_test (TestResult.name r) = false) (records rs).

(** The elements of a list in the order of their first occurrence. *)
Fixpoint first_seen (l : list string) : list string :=
  match l with
  | [] => []
  | x :: l' => x :: filter (λ y, y ≠ x) (first_seen l')
  end.

(** The base names in the order in which each one is first carried by a
    data-driven record with a recognized outcome. *)
Definition group_order (rs : list (option TestResult.t)) : list string :=
  first_seen
    ((λ r, get_ddt_base_name (TestResult.name r)) <$>
     filter (λ r, is_data_driven_test (TestResult.name r) = true
                  ∧ recognized r = true) (records rs)).

(** The base names in the order in which each one first appears on a
    data-driven record of the input, whatever its outcome value. *)
Definition base_name_order (rs : list (option TestResult.t)) : list string :=
  first_seen
    ((λ r, get_ddt_base_name (TestResult.name r)) <$>
     filter (λ r, is_data_driven_test (TestResult.name r) = true)
       (records rs)).

Definition failed (s : TestSubResult.t) : bool :=
  String.eqb (TestSubResult.outcome s) "Failed".

(** A parent node of group [b] agrees with the input [rs]: it carries the
    conversions of the variants of [b], in order, and its outcome is
    "Failed" when one of them failed and that of the first one otherwise. *)
Definition group_node_ok (env : environ) (rs : list (option TestResult.t))
  (b : string) (n : TestCaseResult.t) : Prop :=
  TestCaseResult.automated_test_name n = b
  ∧ TestCaseResult.result_group_type n = Some "dataDriven"
  ∧ ∃ subs,
      Forall2 (λ r s, (convert_to_sub_test env r).1 = Some s)
        (variants b rs) subs
      ∧ TestCaseResult.sub_results n = Some subs
      ∧ subs ≠ []
      ∧ TestCaseResult.outcome n =
          if existsb failed subs then "Failed"
          else default EmptyString (TestSubResult.outcome <$> head subs).

(** What holds of the loop state when the records [rs] have been
    consumed. *)
Record loop_inv (self : self_t) (env : environ)
  (rs : list (option TestResult.t)) (st : loop_state) : Prop := {
  inv_keys : od_keys (data_driven_tests st) = group_order rs;
  inv_absent : ∀ b, od_get b (data_driven_tests st) = None → variants b rs = [];
  inv_group : ∀ b n,
    od_get b (data_driven_tests st) = Some n → group_node_ok env rs b n;
  inv_standalone :
    non_data_driven_tests st =
    (λ r, (convert_result self env r).1) <$> standalone rs;
  inv_order_key : ∀ b,
    b ∈ od_keys (data_driven_tests st) → is_Some (test_name_ordering st !! b);
  inv_order_standalone : ∀ r,
    r ∈ standalone rs → is_Some (test_name_ordering st !! TestResult.name r);
  inv_order_entry : ∀ b,
    (∀ r, r ∈ standalone rs → TestResult.name r ≠ b) →
    test_name_ordering st !! b =
    match variants b rs with
    | [] => None
    | vs => Some (TestResult.name <$> vs)
    end
}.

(** The record [r] with another skip reason. *)
Definition with_skip_reason (reason : option string) (r : TestResult.t)
  : TestResult.t :=
  TestResult.mk (TestResult.name r) (TestResult.kind r)
    (TestResult.type_name r) (TestResult.method r)
    (TestResult.duration_seconds r) (TestResult.result r)
    (TestResult.exception_type r) (TestResult.failure_message r)
    (TestResult.stack_trace r) reason (TestResult.attachments r).

(** The layout of a returned node list: the parent nodes of the groups, in
    the order [order] of their names, then the entries of the records that
    are not data-driven, in input order. *)
Definition grouped_then_standalone (self : self_t) (env : environ)
  (order : list string) (rs : list (option TestResult.t))
  (nodes : list (option TestCaseResult.t)) : Prop :=
  ∃ grouped tail,
    nodes = (Some <$> grouped) ++ tail
    ∧ TestCaseResult.automated_test_name <$> grouped = order
    ∧ Forall (λ n, TestCaseResult.result_group_type n = Some "dataDriven")
        grouped
    ∧ Forall (λ o, ∀ n, o = Some n → TestCaseResult.result_group_type n = None)
        tail
    ∧ omap id tail = omap (λ r, (convert_result self env r).1) (standalone rs).

(** The part of the loop state that [convert_results] returns from. *)
Definition data_of (st : loop_state)
  : odict TestCaseResult.t * list (option TestCaseResult.t)
    * gmap string (list string) :=
  (data_driven_tests st, non_data_driven_tests st, test_name_ordering st).

(** ** Example batches *)

Definition self0 : self_t :=
  {| team_project := "public"; test_run_id := Some 42;
     work_item_name := "workitem" |}.

Definition env0 : environ :=
  {| HELIX_CORRELATION_ID := Some "job-1";
     HELIX_WORKITEM_FRIENDLYNAME := Some "workitem" |}.

(** A stand-in for the encoder, which plays no role in what is checked. *)
Definition plain (s : string) : string := s.

Definition record (name result : string)
  (attachments : list TestResultAttachment.t) : TestResult.t :=
  TestResult.mk name "junit" "Suite" "method" (Qmake 1 100) result
    None (Some "boom") (Some "at line 1") (Some "not today") attachments.

Definition console (text : string) : TestResultAttachment.t :=
  TestResultAttachment.mk "Console_Output.log" (Some text).

(** The example of the specification: two variants of A, then B. *)
Definition spec_batch : list (option TestResult.t) :=
  [Some (record "A(1)" "Pass" []); Some (record "A(2)" "Fail" []);
   Some (record "B" "Pass" [])].

(** A variant of A followed by a record named like the base name. *)
Definition collision_batch : list (option TestResult.t) :=
  [Some (record "A(1)" "Pass" []); Some (record "A" "Pass" [])].

(** The first record of base name A has an unknown outcome value. *)
Definition late_seed_batch : list (option TestResult.t) :=
  [Some (record "A(1)" "Error" []); Some (record "B(1)" "Pass" []);
   Some (record "A(2)" "Pass" [])].

(** A single record outside the groups with an unknown outcome value. *)
Definition unknown_standalone_batch : list (option TestResult.t) :=
  [Some (record "B" "Error" [])].

(** A record named A with an attachment, and a variant of A with one. *)
Definition attachment_batch : list (option TestResult.t) :=
  [Some (record "A" "Fail" [console "parent"]);
   Some (record "A(1)" "Fail" [console "variant"])].

(** The row the service answers for a node: identifier [i], and the
    sub-results numbered from 1. *)
Definition published_as (i : Z) (n : TestCaseResult.t) : TestCaseResult.t :=
  TestCaseResult.mk (TestCaseResult.test_case_title n)
    (TestCaseResult.automated_test_name n)
    (TestCaseResult.automated_test_type n)
    (TestCaseResult.automated_test_storage n) (TestCaseResult.priority n)
    (TestCaseResult.duration_in_ms n) (TestCaseResult.outcome n)
    (TestCaseResult.state n) (TestCaseResult.error_message n)
    (TestCaseResult.stack_trace n) (TestCaseResult.comment n)
    (TestCaseResult.result_group_type n)
    (imap (λ j s,
             TestSubResult.mk (TestSubResult.comment s)
               (TestSubResult.display_name s) (TestSubResult.duration_in_ms s)
               (TestSubResult.outcome s) (TestSubResult.stack_trace s)
               (TestSubResult.error_message s) (Some (Z.of_nat j + 1)))
       <$> TestCaseResult.sub_results n)
    (Some i).

(** A service that accepts every node and numbers the rows from 100. *)
Definition echo_service (nodes : list (option TestCaseResult.t))
  (project : string) (run_id : option Z) : list TestCaseResult.t :=
  imap (λ i n, published_as (100 + Z.of_nat i) n) (omap id nodes).

(** A bare published row. *)
Definition row (name : string) (id : Z)
  (sub_results : option (list TestSubResult.t)) : TestCaseResult.t :=
  TestCaseResult.mk name name "junit" "workitem" 1 (Qmake 10 1) "Passed"
    "Completed" None None (comment env0) None sub_results (Some id).

Definition sub_row (name : string) (id : Z) : TestSubResult.t :=
  TestSubResult.mk (comment env0) name (Qmake 10 1) "Passed" None None
    (Some id).

(** The parent node of the specification's example, as returned. *)
Definition spec_parent : TestCaseResult.t :=
  TestCaseResult.mk "A(1)" "A" "junit" "workitem" 1
    (duration_ms (record "A(1)" "Pass" [])) "Failed" "Completed" None None
    (comment env0) (Some "dataDriven")
    (Some [TestSubResult.mk (comment env0) "A(1)"
             (duration_ms (record "A(1)" "Pass" [])) "Passed" None None None;
           TestSubResult.mk (comment env0) "A(2)"
             (duration_ms (record "A(2)" "Fail" [])) "Failed"
             (Some "at line 1") (Some "boom") None])
    None.

(** Published rows: one the service rejected, one accepted row of a group
    that the ordering index does not know, and the accepted parent row of
    group A with the single sub-result the service gave back. *)
Definition rejected_row : TestCaseResult.t :=
  row "A" (-1) (Some [sub_row "A(1)" 1]).

Definition orphan_row : TestCaseResult.t := row "Z" 7 (Some []).

Definition parent_row : TestCaseResult.t :=
  row "A" 7 (Some [sub_row "A(1)" 1]).

(** The ordering entry of A records two variants. *)
Definition two_variants_order : gmap string (list string) :=
  {["A" := ["A(1)"; "A(2)"]]}.

(** An attachment map that knows the first variant of A only. *)
Definition variant_attachments : gmap string TestResult.t :=
  {["A(1)" := record "A(1)" "Fail" [console "variant"]]}.

(** The name of a node and the display names of its sub-results. *)
Definition node_summary (n : TestCaseResult.t) : string * option (list string) :=
  (TestCaseResult.automated_test_name n,
   option_map (List.map TestSubResult.display_name)
     (TestCaseResult.sub_results n)).


(** The effects of the steps that do not raise. *)
Definition effects_of (steps : list (effect + exn)) : list effect :=
  omap (λ s, match s with inl e => Some e | inr _ => None end) steps.

(** Every attachment of every record of the batch has text. *)
Definition attachments_have_text (rs : list (option TestResult.t)) : Prop :=
  ∀ r a, Some r ∈ rs → a ∈ TestResult.attachments r →
         is_Some (TestResultAttachment.text a).

(** The identifier of the published row that a client call uploads
    against. *)
Definition call_result_id (c : client_call) : option Z :=
  match c with
  | create_test_result_attachment _ _ _ _ result_id => result_id
  | create_test_sub_result_attachment _ _ _ _ result_id _ => result_id
  end.

(** ** The JUnit reader (formats/junit.py) *)

Module JUnit.

(** An element of the parsed report, as [xml.etree.ElementTree] gives it:
    tag, attributes, text (absent for an element without text) and
    children. The report is taken to be well-formed; the parser's own
    errors are outside the model. *)
#[local] Unset Elimination Schemes.
Inductive element :=
| Element (tag : string) (attrib : gmap string string) (text : option string)
    (children : list element).
#[local] Set Elimination Schemes.

Definition tag (e : element) : string :=
  match e with Element t _ _ _ => t end.

(** [element.get(key)] *)
Definition get (key : string) (e : element) : option string :=
  match e with Element _ a _ _ => a !! key end.

Definition text (e : element) : option string :=
  match e with Element _ _ x _ => x end.

Definition children (e : element) : list element :=
  match e with Element _ _ _ cs => cs end.

(** [element.find(tag)]: the first child with that tag. *)
Definition find (t : string) (e : element) : option element :=
  head (filter (λ c, tag c = t) (children e)).

(** [iterparse(path, events=['end'])]: the elements in the order of their
    closing tags, children before their parent. [element.clear()], called
    on a test case once its record is out, empties that element only; no
    later record reads a cleared element, since a record reads the children
    of its own test case that are tagged failure, error, system-out,
    system-err or skipped. *)
Fixpoint end_events (e : element) : list element :=
  match e with
  | Element _ _ _ cs =>
      (fix go (l : list element) : list element :=
         match l with
         | [] => []
         | c :: l' => end_events c ++ go l'
         end) cs ++ [e]
  end.

(** [TestResultAttachment(name=..., text=element.text)]: the text is what
    the element has, possibly nothing. *)
Record attachment := mk_attachment {
  att_name : string;
  att_text : option string
}.

(** The arguments of [TestResult(...)], in the order of the call. *)
Record result_record := mk_result {
  name : string;
  kind : string;
  type_name : string;
  method : string;
  duration_seconds : Q;
  result : string;
  exception_type : option string;
  failure_message : option string;
  stack_trace : option string;
  skip_reason : option string;
  attachments : list attachment
}.

(** What the body of the loop can raise: [None + str] and [float(None)]
    raise [TypeError], [float] of a string that is no number raises
    [ValueError]. *)
Inductive parse_exn := TypeError | ValueError.

Section reader.
(** [float(s)] for a string: the number, or nothing where Python raises
    [ValueError]. *)
Context (float : string → option Q).

(** The body of the loop for an element tagged testcase. *)
Definition parse_testcase (e : element) : result_record + parse_exn :=
  match get "classname" e, get "name" e with
  | Some classname, Some test_name =>
      match get "time" e with
      | None => inr TypeError
      | Some time =>
          match float time with
          | None => inr ValueError
          | Some duration =>
              let failure_element :=
                match find "failure" e with
                | Some f => Some f
                | None => find "error" e
                end in
              let '(result0, exception_type, failure_message, stack_trace,
                    attachments) :=
                match failure_element with
                | Some f =>
                    ("Fail", get "type" f, get "message" f, text f,
                     match find "system-out" e with
                     | Some o => [mk_attachment "Console_Output.log" (text o)]
                     | None => []
                     end
                     ++ match find "system-err" e with
                        | Some o => [mk_attachment "Error_Output.log" (text o)]
                        | None => []
                        end)
                | None => ("Pass", None, None, None, [])
                end in
              let '(result, skip_reason) :=
                match find "skipped" e with
                | Some s =>
                    ("Skip",
                     Some (match text s with
                           | Some x => x
                           | None => EmptyString
                           end))
                | None => (result0, None)
                end in
              inl (mk_result (classname +:+ "." +:+ test_name) "junit"
                     classname test_name duration result exception_type
                     failure_message stack_trace skip_reason attachments)
          end
      end
  | _, _ => inr TypeError
  end.

(** The generator over the stream of closing tags: the records yielded,
    and the exception that ended the stream, if any. *)
Fixpoint read_events (events : list element)
  : list result_record * option parse_exn :=
  match events with
  | [] => ([], None)
  | e :: rest =>
      if String.eqb (tag e) "testcase" then
        match parse_testcase e with
        | inl r => let '(rs, x) := read_events rest in (r :: rs, x)
        | inr x => ([], Some x)
        end
      else read_events rest
  end.

Definition read_results (document : element)
  : list result_record * option parse_exn :=
  read_events (end_events document).

End reader.

(** The test cases of a report, in the order of their closing tags. *)
Definition testcases (document : element) : list element :=
  filter (λ e, tag e = "testcase") (end_events document).

(** The record as the publisher's model holds it. *)
Definition to_TestResult (r : result_record) : TestResult.t :=
  TestResult.mk (name r) (kind r) (type_name r) (method r)
    (duration_seconds r) (result r) (exception_type r)
    (failure_message r) (stack_trace r) (skip_reason r)
    ((λ a, TestResultAttachment.mk (att_name a) (att_text a))
       <$> attachments r).

End JUnit.

(** ** Example reports and further example batches *)



(** A reading of numbers that knows two of them. *)
Definition float0 (s : string) : option Q :=
  if String.eqb s "0.5" then Some (Qmake 1 2)
  else if String.eqb s "2" then Some (Qmake 2 1)
  else None.

Definition el (tag : string) (attrib : list (string * string))
  (text : option string) (children : list JUnit.element) : JUnit.element :=
  JUnit.Element tag (list_to_map attrib) text children.

(** A passing test case that captured output. *)
Definition passing_case : JUnit.element :=
  el "testcase" [("classname", "Suite"); ("name", "ok"); ("time", "0.5")]
    None [el "system-out" [] (Some "noise") []].

(** A failing parameterized test case with both outputs. *)
Definition failing_case : JUnit.element :=
  el "testcase"
    [("classname", "Suite"); ("name", "case(x: 1)"); ("time", "2")] None
    [el "failure" [("type", "AssertionError"); ("message", "boom")]
       (Some "trace") [];
     el "error" [("message", "other")] None [];
     el "system-out" [] (Some "out") [];
     el "system-err" [] (Some "err") []].

(** A test case with an error child and a skipped child without text. *)
Definition skipped_case : JUnit.element :=
  el "testcase" [("classname", "Suite"); ("name", "later"); ("time", "2")]
    None
    [el "error" [("message", "late")] None []; el "skipped" [] None []].

(** A test case without a time attribute. *)
Definition timeless_case : JUnit.element :=
  el "testcase" [("classname", "Suite"); ("name", "odd")] None [].

Definition report : JUnit.element :=
  el "testsuite" [("name", "Suite")] None
    [passing_case; failing_case; skipped_case].

Definition broken_report : JUnit.element :=
  el "testsuite" [("name", "Suite")] None
    [passing_case; timeless_case; failing_case].

(** A failing test case whose captured output is empty: its system-out
    element has no text. *)
Definition silent_case : JUnit.element :=
  el "testcase" [("classname", "Suite"); ("name", "quiet"); ("time", "2")]
    None
    [el "failure" [("message", "boom")] (Some "trace") [];
     el "system-out" [] None []].

Definition silent_report : JUnit.element :=
  el "testsuite" [("name", "Suite")] None [silent_case; passing_case].

(** The batch read from [silent_report]. *)
Definition silent_batch : list (option TestResult.t) :=
  Some <$> (JUnit.to_TestResult
              <$> (JUnit.read_results float0 silent_report).1).




(** * Properties *)

(** ** Strings *)

Lemma endswith_spec (s suffix : string) :
  endswith s suffix = true ↔ ∃ p, s = p +:+ suffix.
Proof.
  induction s as [|c s IH]; cbn [endswith].
  - rewrite orb_false_r, String.eqb_eq. split.
    + intros <-. by exists EmptyString.
    + intros [[|c p] Hp]; simpl in Hp; [done | discriminate].
  - rewrite orb_true_iff, String.eqb_eq, IH. split.
    + intros [<- | [p ->]]; [by exists EmptyString | by exists (String c p)].
    + intros [[|c' p] Hp]; simpl in Hp; [by left | right].
      injection Hp as -> ->. by exists p.
Qed.

Lemma split1_absent (sep : ascii) (s : string) :
  sep ∉ String.list_ascii_of_string s → split1 sep s = [s].
Proof.
  induction s as [|c s IH]; simpl; [done |].
  rewrite not_elem_of_cons. intros [Hne Hs].
  destruct (Ascii.eqb_spec c sep) as [-> | _]; [done |].
  by rewrite IH.
Qed.

Lemma split1_first (sep : ascii) (p q : string) :
  sep ∉ String.list_ascii_of_string p → split1 sep (p +:+ String sep q) = [p; q].
Proof.
  induction p as [|c p IH]; simpl.
  - intros _. by rewrite Ascii.eqb_refl.
  - rewrite not_elem_of_cons. intros [Hne Hp].
    destruct (Ascii.eqb_spec c sep) as [-> | _]; [done |].
    by rewrite IH.
Qed.

(** ** The insertion-ordered dictionary *)

Section odict_facts.
Context {V : Type}.
Implicit Types (d : odict V) (k : string) (v : V).

Lemma od_mem_keys k d : od_mem k d = true ↔ k ∈ od_keys d.
Proof.
  unfold od_mem, od_keys. induction d as [|[k' v'] d IH]; simpl.
  - split; [done | by intros ?%elem_of_nil].
  - rewrite elem_of_cons. destruct (String.eqb_spec k k') as [-> | Hne].
    + split; [by left | done].
    + rewrite IH. intuition congruence.
Qed.

Lemma od_get_None_keys k d : od_get k d = None ↔ k ∉ od_keys d.
Proof.
  rewrite <- od_mem_keys. unfold od_mem. destruct (od_get k d); naive_solver.
Qed.

Lemma od_mem_false_get k d : od_mem k d = false → od_get k d = None.
Proof. unfold od_mem. by destruct (od_get k d). Qed.

Lemma od_get_Some_keys k d v : od_get k d = Some v → k ∈ od_keys d.
Proof.
  intros H. apply od_mem_keys. unfold od_mem. by rewrite H.
Qed.

Lemma od_keys_alter f k d : od_keys (od_alter f k d) = od_keys d.
Proof.
  unfold od_keys. induction d as [|[k' v'] d IH]; simpl; [done |].
  destruct (String.eqb k k'); csimpl; [done | by f_equal].
Qed.

Lemma od_get_alter f k k' d :
  od_get k' (od_alter f k d) =
  if String.eqb k' k then f <$> od_get k' d else od_get k' d.
Proof.
  induction d as [|[k0 v0] d IH]; simpl.
  - by destruct (String.eqb k' k).
  - destruct (String.eqb_spec k k0) as [-> | Hne]; simpl.
    + destruct (String.eqb_spec k' k0) as [-> | Hne']; [done | done].
    + destruct (String.eqb_spec k' k0) as [-> | Hne']; simpl.
      * destruct (String.eqb_spec k0 k) as [-> | _]; [done | done].
      * apply IH.
Qed.

Lemma od_set_fresh k v d :
  od_get k d = None → od_set k v d = d ++ [(k, v)].
Proof.
  induction d as [|[k0 v0] d IH]; simpl; [done |].
  destruct (String.eqb k k0); [done |]. intros H. by rewrite IH.
Qed.

Lemma od_get_app_fresh k k' v d :
  od_get k d = None →
  od_get k' (d ++ [(k, v)]) = if String.eqb k' k then Some v else od_get k' d.
Proof.
  induction d as [|[k0 v0] d IH]; simpl; [done |].
  destruct (String.eqb_spec k k0) as [-> | Hne]; [done |]. intros H.
  destruct (String.eqb_spec k' k0) as [-> | Hne'].
  - destruct (String.eqb_spec k0 k) as [-> | _]; [done | done].
  - by apply IH.
Qed.

Lemma od_values_get d v :
  NoDup (od_keys d) → v ∈ od_values d → ∃ k, od_get k d = Some v.
Proof.
  unfold od_keys, od_values. induction d as [|[k0 v0] d IH]; simpl.
  - by intros _ ?%elem_of_nil.
  - rewrite NoDup_cons, elem_of_cons. intros [Hk0 Hnd] [-> | Hin].
    + exists k0. by rewrite String.eqb_refl.
    + destruct (IH Hnd Hin) as [k Hk]. exists k.
      destruct (String.eqb_spec k k0) as [-> | _]; [| done].
      by apply od_get_Some_keys in Hk.
Qed.

Lemma od_elem_get k v d :
  NoDup (od_keys d) → (k, v) ∈ d → od_get k d = Some v.
Proof.
  unfold od_keys. induction d as [|[k0 v0] d IH]; simpl.
  - by intros _ ?%elem_of_nil.
  - rewrite NoDup_cons, elem_of_cons. intros [Hk0 Hnd] [[= -> ->] | Hin].
    + by rewrite String.eqb_refl.
    + destruct (String.eqb_spec k k0) as [-> | _]; [| by apply IH].
      destruct Hk0. apply list_elem_of_fmap. by exists (k0, v).
Qed.

End odict_facts.

(** ** First occurrences *)

Lemma elem_of_first_seen (x : string) (l : list string) :
  x ∈ first_seen l ↔ x ∈ l.
Proof.
  induction l as [|a l IH]; simpl; [done |].
  rewrite !elem_of_cons, list_elem_of_filter, IH.
  destruct (decide (x = a)); intuition.
Qed.

Lemma first_seen_snoc (l : list string) (x : string) :
  first_seen (l ++ [x]) =
  if decide (x ∈ l) then first_seen l else first_seen l ++ [x].
Proof.
  induction l as [|a l IH]; simpl.
  - done.
  - rewrite IH. destruct (decide (x ∈ l)) as [Hin | Hnin].
    + by rewrite decide_True by (by right).
    + rewrite filter_app. destruct (decide (x = a)) as [-> | Hne].
      * rewrite decide_True by (by left).
        rewrite filter_cons_False by naive_solver.
        by rewrite filter_nil, app_nil_r.
      * rewrite decide_False by (rewrite elem_of_cons; intuition).
        by rewrite filter_cons_True by done.
Qed.

Lemma NoDup_first_seen (l : list string) : NoDup (first_seen l).
Proof.
  induction l as [|a l IH]; simpl; [constructor |].
  apply NoDup_cons. split.
  - rewrite list_elem_of_filter. intros [Ha _]. by apply Ha.
  - by apply NoDup_filter.
Qed.

(** ** The input seen one record at a time *)

Lemma records_snoc (l : list (option TestResult.t)) (x : option TestResult.t) :
  records (l ++ [x]) = records l ++ match x with Some r => [r] | None => [] end.
Proof. unfold records. rewrite omap_app. by destruct x. Qed.

Lemma variants_snoc_None (b : string) (l : list (option TestResult.t)) :
  variants b (l ++ [None]) = variants b l.
Proof. unfold variants. by rewrite records_snoc, app_nil_r. Qed.

Lemma variants_snoc_in (b : string) l (r : TestResult.t) :
  is_data_driven_test (TestResult.name r) = true →
  get_ddt_base_name (TestResult.name r) = b →
  recognized r = true →
  variants b (l ++ [Some r]) = variants b l ++ [r].
Proof.
  intros. unfold variants.
  by rewrite records_snoc, filter_app, filter_cons_True, filter_nil.
Qed.

Lemma variants_snoc_out (b : string) l (r : TestResult.t) :
  is_data_driven_test (TestResult.name r) = false
  ∨ get_ddt_base_name (TestResult.name r) ≠ b
  ∨ recognized r = false →
  variants b (l ++ [Some r]) = variants b l.
Proof.
  intros H. unfold variants.
  rewrite records_snoc, filter_app, filter_cons_False, filter_nil, app_nil_r;
    [done |].
  intros (H1 & H2 & H3). destruct H as [H | [H | H]]; congruence.
Qed.

Lemma standalone_snoc_None (l : list (option TestResult.t)) :
  standalone (l ++ [None]) = standalone l.
Proof. unfold standalone. by rewrite records_snoc, app_nil_r. Qed.

Lemma standalone_snoc_in l (r : TestResult.t) :
  is_data_driven_test (TestResult.name r) = false →
  standalone (l ++ [Some r]) = standalone l ++ [r].
Proof.
  intros. unfold standalone.
  by rewrite records_snoc, filter_app, filter_cons_True, filter_nil.
Qed.

Lemma standalone_snoc_out l (r : TestResult.t) :
  is_data_driven_test (TestResult.name r) = true →
  standalone (l ++ [Some r]) = standalone l.
Proof.
  intros H. unfold standalone.
  rewrite records_snoc, filter_app, filter_cons_False, filter_nil, app_nil_r;
    [done | congruence].
Qed.

Lemma group_order_snoc_None (l : list (option TestResult.t)) :
  group_order (l ++ [None]) = group_order l.
Proof. unfold group_order. by rewrite records_snoc, app_nil_r. Qed.

Lemma group_order_snoc_out l (r : TestResult.t) :
  is_data_driven_test (TestResult.name r) = false ∨ recognized r = false →
  group_order (l ++ [Some r]) = group_order l.
Proof.
  intros H. unfold group_order.
  rewrite records_snoc, filter_app, filter_cons_False, filter_nil, app_nil_r;
    [done |].
  intros (H1 & H2). destruct H as [H | H]; congruence.
Qed.

Lemma group_order_snoc_in l (r : TestResult.t) :
  is_data_driven_test (TestResult.name r) = true →
  recognized r = true →
  group_order (l ++ [Some r]) =
  if decide (get_ddt_base_name (TestResult.name r) ∈ group_order l)
  then group_order l
  else group_order l ++ [get_ddt_base_name (TestResult.name r)].
Proof.
  intros H1 H2. unfold group_order.
  rewrite records_snoc, filter_app, filter_cons_True, filter_nil by done.
  rewrite fmap_app. simpl. rewrite first_seen_snoc.
  destruct (decide _) as [Hin | Hnin].
  - by rewrite decide_True by (by apply elem_of_first_seen).
  - by rewrite decide_False by (by rewrite elem_of_first_seen).
Qed.

Lemma run_from_app (self : self_t) (env : environ) (st : loop_state)
  (l1 l2 : list (option TestResult.t)) :
  run_from self env st (l1 ++ l2) =
  run_from self env (run_from self env st l1) l2.
Proof. unfold run_from. by rewrite fold_left_app. Qed.

Lemma run_from_cons (self : self_t) (env : environ) (st : loop_state)
  (x : option TestResult.t) (l : list (option TestResult.t)) :
  run_from self env st (x :: l) =
  run_from self env (convert_step self env st x) l.
Proof. done. Qed.

Lemma run_from_snoc (self : self_t) (env : environ) (st : loop_state)
  (l : list (option TestResult.t)) (x : option TestResult.t) :
  run_from self env st (l ++ [x]) =
  convert_step self env (run_from self env st l) x.
Proof. unfold run_from. by rewrite fold_left_app. Qed.

(** ** The two conversions *)

Section conversions.
Context (self : self_t) (env : environ).

Lemma recognized_spec (r : TestResult.t) :
  recognized r = true ↔
  TestResult.result r = "Pass" ∨ TestResult.result r = "Fail"
  ∨ TestResult.result r = "Skip".
Proof.
  unfold recognized. rewrite bool_decide_eq_true.
  rewrite !elem_of_cons, elem_of_nil. tauto.
Qed.

Lemma convert_cases (r : TestResult.t) :
  (recognized r = true
   ∧ ∃ n s,
       convert_result self env r = (Some n, [])
       ∧ convert_to_sub_test env r = (Some s, [])
       ∧ standard_table (TestResult.result r) = Some (TestCaseResult.outcome n)
       ∧ TestSubResult.outcome s = TestCaseResult.outcome n
       ∧ TestCaseResult.automated_test_name n = TestResult.name r
       ∧ TestCaseResult.test_case_title n = TestResult.name r
       ∧ TestCaseResult.sub_results n = None
       ∧ TestCaseResult.result_group_type n = None
       ∧ TestSubResult.display_name s = TestResult.name r)
  ∨ (recognized r = false
     ∧ convert_result self env r = (None, [unexpected_result r])
     ∧ convert_to_sub_test env r = (None, [unexpected_result r])).
Proof.
  unfold convert_result, convert_to_sub_test, standard_table.
  destruct (String.eqb_spec (TestResult.result r) "Pass") as [HP | HP].
  { left. split; [apply recognized_spec; tauto |]. by eexists _, _. }
  destruct (String.eqb_spec (TestResult.result r) "Fail") as [HF | HF].
  { left. split; [apply recognized_spec; tauto |]. by eexists _, _. }
  destruct (String.eqb_spec (TestResult.result r) "Skip") as [HS | HS].
  { left. split; [apply recognized_spec; tauto |]. by eexists _, _. }
  right. split; [| done].
  apply not_true_is_false. rewrite recognized_spec. tauto.
Qed.

(** *** One iteration, branch by branch *)

Lemma step_standalone (st : loop_state) (r : TestResult.t) :
  is_data_driven_test (TestResult.name r) = false →
  data_driven_tests (convert_step self env st (Some r)) = data_driven_tests st
  ∧ non_data_driven_tests (convert_step self env st (Some r)) =
      non_data_driven_tests st ++ [(convert_result self env r).1]
  ∧ test_name_ordering (convert_step self env st (Some r)) =
      <[TestResult.name r := []]> (test_name_ordering st)
  ∧ log (convert_step self env st (Some r)) =
      log st ++ (convert_result self env r).2.
Proof.
  intros H. unfold convert_step. rewrite H. simpl.
  by destruct (convert_result self env r).
Qed.

Lemma step_unrecognized (st : loop_state) (r : TestResult.t) :
  is_data_driven_test (TestResult.name r) = true →
  recognized r = false →
  data_driven_tests (convert_step self env st (Some r)) = data_driven_tests st
  ∧ non_data_driven_tests (convert_step self env st (Some r)) =
      non_data_driven_tests st
  ∧ test_name_ordering (convert_step self env st (Some r)) =
      test_name_ordering st
  ∧ ∃ w, w ≠ [] ∧ Forall (λ e, e = unexpected_result r) w
         ∧ log (convert_step self env st (Some r)) = log st ++ w.
Proof.
  intros H Hrec. unfold convert_step. rewrite H. simpl.
  destruct (convert_cases r) as [[? _] | (_ & -> & ->)]; [congruence |].
  destruct (od_mem _ _); simpl; (do 3 (split; [done |]));
    eexists; (split; [| split; [| done]]); [done | | done |];
    repeat constructor.
Qed.

Lemma step_variant_seen (st : loop_state) (r : TestResult.t) :
  is_data_driven_test (TestResult.name r) = true →
  recognized r = true →
  od_mem (get_ddt_base_name (TestResult.name r)) (data_driven_tests st) = true →
  ∃ s, convert_to_sub_test env r = (Some s, [])
    ∧ data_driven_tests (convert_step self env st (Some r)) =
        (if failed s
         then od_alter (TestCaseResult.set_outcome "Failed")
                (get_ddt_base_name (TestResult.name r))
                (od_alter (append_sub_result s)
                   (get_ddt_base_name (TestResult.name r))
                   (data_driven_tests st))
         else od_alter (append_sub_result s)
                (get_ddt_base_name (TestResult.name r))
                (data_driven_tests st))
    ∧ non_data_driven_tests (convert_step self env st (Some r)) =
        non_data_driven_tests st
    ∧ test_name_ordering (convert_step self env st (Some r)) =
        alter (λ l, l ++ [TestResult.name r])
          (get_ddt_base_name (TestResult.name r)) (test_name_ordering st).
Proof.
  intros H Hrec Hmem. unfold convert_step. rewrite H, Hmem. simpl.
  destruct (convert_cases r) as [(_ & n & s & _ & -> & _) | [? _]];
    [| congruence].
  exists s. by repeat split.
Qed.

Lemma step_variant_new (st : loop_state) (r : TestResult.t) :
  is_data_driven_test (TestResult.name r) = true →
  recognized r = true →
  od_mem (get_ddt_base_name (TestResult.name r)) (data_driven_tests st) = false →
  ∃ cr csr,
    convert_result self env r = (Some cr, [])
    ∧ convert_to_sub_test env r = (Some csr, [])
    ∧ data_driven_tests (convert_step self env st (Some r)) =
        od_set (get_ddt_base_name (TestResult.name r))
          (seed_node (get_ddt_base_name (TestResult.name r)) cr csr)
          (data_driven_tests st)
    ∧ non_data_driven_tests (convert_step self env st (Some r)) =
        non_data_driven_tests st
    ∧ test_name_ordering (convert_step self env st (Some r)) =
        <[get_ddt_base_name (TestResult.name r) := [TestResult.name r]]>
          (test_name_ordering st).
Proof.
  intros H Hrec Hmem. unfold convert_step. rewrite H, Hmem. simpl.
  destruct (convert_cases r) as [(_ & n & s & -> & -> & _) | [? _]];
    [| congruence].
  exists n, s. by repeat split.
Qed.

End conversions.

(** ** The loop invariant *)

Section invariant.
Context (self : self_t) (env : environ).

Lemma group_node_ok_same (rs rs' : list (option TestResult.t)) b n :
  variants b rs' = variants b rs →
  group_node_ok env rs b n → group_node_ok env rs' b n.
Proof. unfold group_node_ok. by intros ->. Qed.

Lemma inv_init (rs0 : list (option TestResult.t)) :
  loop_inv self env [] (initial_state rs0).
Proof.
  constructor; simpl; try done.
  - by intros b ?%elem_of_nil.
  - by intros r ?%elem_of_nil.
Qed.

Lemma inv_step_None rs st :
  loop_inv self env rs st →
  loop_inv self env (rs ++ [None]) (convert_step self env st None).
Proof.
  intros [HK HA HG HS HO1 HO2 HO3]. simpl.
  constructor; rewrite ?group_order_snoc_None, ?standalone_snoc_None; try done.
  - intros b. rewrite variants_snoc_None. apply HA.
  - intros b n Hn. eapply group_node_ok_same; [apply variants_snoc_None |].
    by apply HG.
  - intros b Hb. rewrite variants_snoc_None. by apply HO3.
Qed.

Lemma inv_step_standalone rs st r :
  is_data_driven_test (TestResult.name r) = false →
  loop_inv self env rs st →
  loop_inv self env (rs ++ [Some r]) (convert_step self env st (Some r)).
Proof.
  intros H [HK HA HG HS HO1 HO2 HO3].
  destruct (step_standalone self env st r H) as (Hd & Hn & Ho & _).
  assert (Hv : ∀ b, variants b (rs ++ [Some r]) = variants b rs)
    by (intros b; apply variants_snoc_out; by left).
  constructor; rewrite ?Hd, ?Hn, ?Ho, ?standalone_snoc_in by done.
  - rewrite group_order_snoc_out by (by left). done.
  - intros b. rewrite Hv. apply HA.
  - intros b n Hn'. eapply group_node_ok_same; [apply Hv | by apply HG].
  - by rewrite fmap_app, HS.
  - intros b Hb. rewrite lookup_insert_is_Some.
    destruct (decide (TestResult.name r = b)); [by left | right]. auto.
  - intros r' [Hr' | ->%list_elem_of_singleton]%elem_of_app.
    + rewrite lookup_insert_is_Some.
      destruct (decide (TestResult.name r = TestResult.name r'));
        [by left | right]. auto.
    + rewrite lookup_insert_eq. by eexists.
  - intros b Hb. rewrite Hv.
    rewrite lookup_insert_ne.
    + apply HO3. intros r' Hr'. apply Hb, elem_of_app. by left.
    + apply Hb, elem_of_app. right. by apply list_elem_of_singleton.
Qed.

Lemma inv_step_unrecognized rs st r :
  is_data_driven_test (TestResult.name r) = true →
  recognized r = false →
  loop_inv self env rs st →
  loop_inv self env (rs ++ [Some r]) (convert_step self env st (Some r)).
Proof.
  intros H Hrec [HK HA HG HS HO1 HO2 HO3].
  destruct (step_unrecognized self env st r H Hrec) as (Hd & Hn & Ho & _).
  assert (Hv : ∀ b, variants b (rs ++ [Some r]) = variants b rs)
    by (intros b; apply variants_snoc_out; by right; right).
  constructor; rewrite ?Hd, ?Hn, ?Ho, ?standalone_snoc_out by done; try done.
  - rewrite group_order_snoc_out by (by right). done.
  - intros b. rewrite Hv. apply HA.
  - intros b n Hn'. eapply group_node_ok_same; [apply Hv | by apply HG].
  - intros b Hb. rewrite Hv. by apply HO3.
Qed.

Lemma inv_step_new rs st r :
  is_data_driven_test (TestResult.name r) = true →
  recognized r = true →
  od_mem (get_ddt_base_name (TestResult.name r)) (data_driven_tests st) = false →
  loop_inv self env rs st →
  loop_inv self env (rs ++ [Some r]) (convert_step self env st (Some r)).
Proof.
  intros H Hrec Hmem [HK HA HG HS HO1 HO2 HO3].
  destruct (step_variant_new self env st r H Hrec Hmem)
    as (cr & csr & Hcr & Hcsr & Hd & Hn & Ho).
  remember (get_ddt_base_name (TestResult.name r)) as base eqn:Hbase.
  assert (Hget : od_get base (data_driven_tests st) = None).
  { by apply od_mem_false_get. }
  rewrite od_set_fresh in Hd by done.
  assert (Hv : ∀ b, b ≠ base → variants b (rs ++ [Some r]) = variants b rs).
  { intros b Hb. apply variants_snoc_out. right; left. congruence. }
  assert (Hvb : variants base (rs ++ [Some r]) = [r]).
  { rewrite variants_snoc_in by done. by rewrite HA. }
  constructor; rewrite ?Hd, ?Hn, ?Ho, ?standalone_snoc_out by done; try done.
  - unfold od_keys. rewrite fmap_app. simpl. fold (od_keys (data_driven_tests st)).
    rewrite group_order_snoc_in by done. rewrite <- Hbase.
    rewrite decide_False; [by rewrite HK |].
    rewrite <- HK. by apply od_get_None_keys.
  - intros b. rewrite (od_get_app_fresh base b) by exact Hget.
    destruct (String.eqb_spec b base) as [Heq | Hne]; [done |].
    intros Hb. rewrite Hv by done. by apply HA.
  - intros b n. rewrite (od_get_app_fresh base b) by exact Hget.
    destruct (String.eqb_spec b base) as [Heq | Hne]; [subst b |]; intros Hb.
    + injection Hb as <-. unfold group_node_ok. rewrite Hvb.
      split; [done |]. split; [done |]. exists [csr].
      split; [constructor; [by rewrite Hcsr | constructor] |].
      split; [done |]. split; [done |].
      destruct (convert_cases self env r)
        as [(_ & n0 & s0 & Hn0 & Hs0 & _ & Hout & _) | [? _]]; [| congruence].
      rewrite Hcr in Hn0. rewrite Hcsr in Hs0.
      injection Hn0 as <-. injection Hs0 as <-.
      simpl. rewrite orb_false_r. unfold failed.
      destruct (String.eqb_spec (TestSubResult.outcome csr) "Failed")
        as [He | _]; congruence.
    + eapply group_node_ok_same; [by apply Hv | by apply HG].
  - intros b Hb. rewrite lookup_insert_is_Some.
    destruct (decide (base = b)); [by left | right]. split; [done |].
    apply HO1. unfold od_keys in Hb. rewrite fmap_app in Hb.
    apply elem_of_app in Hb as [Hb | Hb%list_elem_of_singleton]; [done |].
    simpl in Hb. congruence.
  - intros r' Hr'. rewrite lookup_insert_is_Some.
    destruct (decide (base = TestResult.name r')); [by left | right]. auto.
  - intros b Hb. destruct (decide (base = b)) as [<- | Hne].
    + by rewrite lookup_insert_eq, Hvb.
    + rewrite lookup_insert_ne by done. rewrite Hv by done. by apply HO3.
Qed.

Lemma od_get_seen (d : odict TestCaseResult.t) (base b : string)
  (s : TestSubResult.t) :
  od_get b
    (if failed s
     then od_alter (TestCaseResult.set_outcome "Failed") base
            (od_alter (append_sub_result s) base d)
     else od_alter (append_sub_result s) base d) =
  if String.eqb b base
  then (λ n, if failed s
             then TestCaseResult.set_outcome "Failed" (append_sub_result s n)
             else append_sub_result s n) <$> od_get b d
  else od_get b d.
Proof.
  destruct (failed s); rewrite ?od_get_alter;
    destruct (String.eqb b base); try done.
  by destruct (od_get b d).
Qed.

Lemma inv_step_seen rs st r :
  is_data_driven_test (TestResult.name r) = true →
  recognized r = true →
  od_mem (get_ddt_base_name (TestResult.name r)) (data_driven_tests st) = true →
  loop_inv self env rs st →
  loop_inv self env (rs ++ [Some r]) (convert_step self env st (Some r)).
Proof.
  intros H Hrec Hmem [HK HA HG HS HO1 HO2 HO3].
  destruct (step_variant_seen self env st r H Hrec Hmem)
    as (s & Hs & Hd & Hn & Ho).
  remember (get_ddt_base_name (TestResult.name r)) as base eqn:Hbase.
  assert (Hv : ∀ b, b ≠ base → variants b (rs ++ [Some r]) = variants b rs).
  { intros b Hb. apply variants_snoc_out. right; left. congruence. }
  assert (Hvb : variants base (rs ++ [Some r]) = variants base rs ++ [r])
    by (by apply variants_snoc_in).
  assert (Hkeys : od_keys (data_driven_tests (convert_step self env st (Some r)))
                  = od_keys (data_driven_tests st)).
  { rewrite Hd. destruct (failed s); by rewrite !od_keys_alter. }
  assert (Hnonempty : variants base rs ≠ []).
  { intros Hnil. unfold od_mem in Hmem.
    destruct (od_get base (data_driven_tests st)) as [n0 |] eqn:Hn0; [| done].
    destruct (HG _ _ Hn0) as (_ & _ & subs & HF & _ & Hne & _).
    rewrite Hnil in HF. by apply Forall2_nil_inv_l in HF. }
  constructor; rewrite ?Hkeys, ?Hn, ?Ho, ?standalone_snoc_out by done; try done.
  - rewrite group_order_snoc_in by done. rewrite <- Hbase.
    rewrite decide_True; [done |]. rewrite <- HK. by apply od_mem_keys.
  - intros b. rewrite Hd, od_get_seen.
    destruct (String.eqb_spec b base) as [Heq | Hne]; [subst b |].
    + unfold od_mem in Hmem. by destruct (od_get base _).
    + rewrite Hv by done. apply HA.
  - intros b n. rewrite Hd, od_get_seen.
    destruct (String.eqb_spec b base) as [Heq | Hne]; [subst b |].
    + destruct (od_get base (data_driven_tests st)) as [n0 |] eqn:Hn0; [| done].
      simpl. intros [= <-].
      destruct (HG _ _ Hn0) as (Hname & Hty & subs & HF & Hsub & Hne & Hout).
      unfold group_node_ok. rewrite Hvb.
      split; [by destruct (failed s) |]. split; [by destruct (failed s) |].
      exists (subs ++ [s]).
      split; [apply Forall2_app; [done |]; constructor;
              [by rewrite Hs | constructor] |].
      split; [destruct (failed s); simpl; by rewrite Hsub |].
      split; [by destruct subs |].
      rewrite existsb_app. simpl. rewrite orb_false_r.
      destruct (failed s) eqn:Hf; simpl.
      * by rewrite orb_true_r.
      * rewrite orb_false_r, Hout. by destruct subs.
    + intros Hb. eapply group_node_ok_same; [by apply Hv | by apply HG].
  - intros b Hb. rewrite lookup_alter_is_Some. by apply HO1.
  - intros r' Hr'. rewrite lookup_alter_is_Some. by apply HO2.
  - intros b Hb. destruct (decide (base = b)) as [<- | Hne].
    + rewrite lookup_alter_eq, Hvb, (HO3 base Hb).
      destruct (variants base rs) as [| r0 vs]; [done |].
      simpl. by rewrite fmap_app.
    + rewrite lookup_alter_ne by done. rewrite Hv by done. by apply HO3.
Qed.

Lemma inv_step rs st x :
  loop_inv self env rs st →
  loop_inv self env (rs ++ [x]) (convert_step self env st x).
Proof.
  destruct x as [r |]; [| apply inv_step_None].
  destruct (is_data_driven_test (TestResult.name r)) eqn:H;
    [| by apply inv_step_standalone].
  destruct (recognized r) eqn:Hrec; [| by apply inv_step_unrecognized].
  destruct (od_mem (get_ddt_base_name (TestResult.name r))
              (data_driven_tests st)) eqn:Hmem.
  - by apply inv_step_seen.
  - by apply inv_step_new.
Qed.

Lemma inv_run (rs0 rs : list (option TestResult.t)) :
  loop_inv self env rs (run_from self env (initial_state rs0) rs).
Proof.
  induction rs as [| x rs IH] using rev_ind; [apply inv_init |].
  rewrite run_from_snoc. by apply inv_step.
Qed.

Lemma inv_convert_loop (rs : list (option TestResult.t)) :
  loop_inv self env rs (convert_loop self env rs).
Proof. apply inv_run. Qed.

End invariant.

(** ** Classification of names *)

(** C7. A name is a data-driven variant exactly when it ends with a closing
    parenthesis; the base name is the text before the first opening
    parenthesis, and the whole name when it has none. *)
Theorem data_driven_classification (name : string) :
  (is_data_driven_test name = true ↔ ∃ p, name = p +:+ ")")
  ∧ (∀ p q, name = p +:+ "(" +:+ q →
            "("%char ∉ String.list_ascii_of_string p →
            get_ddt_base_name name = p)
  ∧ ("("%char ∉ String.list_ascii_of_string name →
     get_ddt_base_name name = name).
Proof.
  split; [apply endswith_spec |]. unfold get_ddt_base_name. split.
  - intros p q -> Hp. change ("(" +:+ q) with (String "(" q).
    by rewrite (split1_first "(" p q Hp).
  - intros Hn. by rewrite split1_absent.
Qed.

Section grouping.
Context (self : self_t) (env : environ).

(** ** Failure is never taken back *)

Lemma failed_kept_step (st : loop_state) (x : option TestResult.t)
  (b : string) (m : TestCaseResult.t) :
  od_get b (data_driven_tests st) = Some m →
  TestCaseResult.outcome m = "Failed" →
  ∃ m', od_get b (data_driven_tests (convert_step self env st x)) = Some m'
        ∧ TestCaseResult.outcome m' = "Failed".
Proof.
  intros Hm Hout. destruct x as [r |]; [| by exists m].
  destruct (is_data_driven_test (TestResult.name r)) eqn:H.
  2:{ destruct (step_standalone self env st r H) as (-> & _). by exists m. }
  destruct (recognized r) eqn:Hrec.
  2:{ destruct (step_unrecognized self env st r H Hrec) as (-> & _).
      by exists m. }
  destruct (od_mem (get_ddt_base_name (TestResult.name r))
              (data_driven_tests st)) eqn:Hmem.
  - destruct (step_variant_seen self env st r H Hrec Hmem) as (s & _ & -> & _).
    rewrite od_get_seen, Hm. simpl.
    destruct (String.eqb b _); [| by exists m].
    eexists; split; [reflexivity |]. by destruct (failed s).
  - destruct (step_variant_new self env st r H Hrec Hmem)
      as (cr & csr & _ & _ & -> & _).
    assert (Hget : od_get (get_ddt_base_name (TestResult.name r))
                     (data_driven_tests st) = None).
    { by apply od_mem_false_get. }
    rewrite od_set_fresh, od_get_app_fresh by done.
    destruct (String.eqb_spec b (get_ddt_base_name (TestResult.name r)))
      as [Heq | _]; [congruence | by exists m].
Qed.

Lemma failed_kept_run (rs : list (option TestResult.t)) (st : loop_state)
  (b : string) (m : TestCaseResult.t) :
  od_get b (data_driven_tests st) = Some m →
  TestCaseResult.outcome m = "Failed" →
  ∃ m', od_get b (data_driven_tests (run_from self env st rs)) = Some m'
        ∧ TestCaseResult.outcome m' = "Failed".
Proof.
  revert st m. induction rs as [| x rs IH]; intros st m Hm Hout; simpl.
  - by exists m.
  - destruct (failed_kept_step st x b m Hm Hout) as (m' & Hm' & Hout').
    by apply (IH _ m').
Qed.

(** ** Nodes of the returned list *)

Lemma standalone_node_plain (rs : list (option TestResult.t))
  (n : TestCaseResult.t) :
  Some n ∈ non_data_driven_tests (convert_loop self env rs) →
  TestCaseResult.sub_results n = None
  ∧ TestCaseResult.result_group_type n = None.
Proof.
  rewrite (inv_standalone _ _ _ _ (inv_convert_loop self env rs)).
  intros (r & Hr & _)%list_elem_of_fmap.
  destruct (convert_cases self env r)
    as [(_ & n0 & s0 & Hn0 & _ & _ & _ & _ & _ & ? & ? & _) | (_ & Hn0 & _)];
    rewrite Hn0 in Hr; simpl in Hr; [| done].
  by injection Hr as ->.
Qed.

Lemma grouped_node_get (rs : list (option TestResult.t))
  (n : TestCaseResult.t) :
  n ∈ od_values (data_driven_tests (convert_loop self env rs)) →
  group_node_ok env rs (TestCaseResult.automated_test_name n) n.
Proof.
  intros Hin. pose proof (inv_convert_loop self env rs) as Hinv.
  apply od_values_get in Hin as [b Hb].
  - pose proof (inv_group _ _ _ _ Hinv b n Hb) as Hok.
    by rewrite (proj1 Hok).
  - rewrite (inv_keys _ _ _ _ Hinv). apply NoDup_first_seen.
Qed.

Lemma grouped_names (rs : list (option TestResult.t)) :
  TestCaseResult.automated_test_name
    <$> od_values (data_driven_tests (convert_loop self env rs))
  = od_keys (data_driven_tests (convert_loop self env rs)).
Proof.
  pose proof (inv_convert_loop self env rs) as Hinv.
  unfold od_values, od_keys. rewrite <- list_fmap_compose.
  apply Forall_fmap_ext, Forall_forall. intros [k v] Hin. simpl.
  apply od_elem_get in Hin.
  - by destruct (inv_group _ _ _ _ Hinv k v Hin).
  - rewrite (inv_keys _ _ _ _ Hinv). apply NoDup_first_seen.
Qed.

Lemma omap_id_fmap {A B : Type} (f : A → option B) (l : list A) :
  omap id (f <$> l) = omap f l.
Proof.
  induction l as [| a l IH]; [done |]. csimpl. by rewrite IH.
Qed.

(** ** The claims on the grouping engine *)

(** C1. A node of the returned list that carries a non-empty list of
    sub-results has outcome "Failed" exactly when one of its sub-results
    has; when none has, its outcome is that of the first variant of the
    group (the record its first sub-result was converted from) mapped
    through the standard table; and a parent that is "Failed" at some point
    of the loop is "Failed" at every later point. *)
Theorem grouped_outcome_invariant (rs : list (option TestResult.t))
  (n : TestCaseResult.t) (subs : list TestSubResult.t) :
  Some n ∈ (convert_results self env rs).1 →
  TestCaseResult.sub_results n = Some subs →
  subs ≠ [] →
  (TestCaseResult.outcome n = "Failed"
   ↔ ∃ s, s ∈ subs ∧ TestSubResult.outcome s = "Failed")
  ∧ ((∀ s, s ∈ subs → TestSubResult.outcome s ≠ "Failed") →
     ∃ r0 s0,
       head (variants (TestCaseResult.automated_test_name n) rs) = Some r0
       ∧ head subs = Some s0
       ∧ (convert_to_sub_test env r0).1 = Some s0
       ∧ standard_table (TestResult.result r0)
         = Some (TestCaseResult.outcome n))
  ∧ (∀ before after b m,
       od_get b (data_driven_tests
                   (run_from self env (initial_state rs) before)) = Some m →
       TestCaseResult.outcome m = "Failed" →
       ∃ m',
         od_get b (data_driven_tests
                     (run_from self env (initial_state rs) (before ++ after)))
         = Some m'
         ∧ TestCaseResult.outcome m' = "Failed").
Proof.
  intros Hin Hsub Hne. unfold convert_results in Hin. simpl in Hin.
  apply elem_of_app in Hin as [Hin | Hin].
  2:{ apply standalone_node_plain in Hin as [? _]. congruence. }
  apply list_elem_of_fmap in Hin as (n' & [= <-] & Hin).
  destruct (grouped_node_get rs n Hin)
    as (_ & _ & subs' & HF & Hsub' & _ & Hout).
  rewrite Hsub in Hsub'. injection Hsub' as <-.
  assert (Hex : existsb failed subs = true
                ↔ ∃ s, s ∈ subs ∧ TestSubResult.outcome s = "Failed").
  { rewrite existsb_exists. unfold failed.
    split; intros (s & Hs & Hf); exists s.
    - by rewrite list_elem_of_In, <- String.eqb_eq.
    - by rewrite <- list_elem_of_In, String.eqb_eq. }
  destruct subs as [| s0 ss]; [done |].
  destruct (variants (TestCaseResult.automated_test_name n) rs)
    as [| r0 vs] eqn:Hvs; [by apply Forall2_nil_inv_l in HF |].
  apply Forall2_cons_1 in HF as [Hs0 _].
  split; [| split].
  - destruct (existsb failed (s0 :: ss)) eqn:E.
    + split; [intros _; by apply Hex | done].
    + simpl in Hout. split.
      * intros Hf. exists s0. split; [by left | congruence].
      * intros H. apply Hex in H. congruence.
  - intros Hnone. exists r0, s0. do 3 (split; [done |]).
    destruct (existsb failed (s0 :: ss)) eqn:E.
    + destruct (proj1 Hex eq_refl) as (s & Hs & Hf). by destruct (Hnone s Hs).
    + simpl in Hout. rewrite Hout.
      destruct (convert_cases self env r0)
        as [(_ & n1 & s1 & _ & Hs1 & Htab & Heq & _) | (_ & _ & Hs1)];
        rewrite Hs1 in Hs0; simpl in Hs0; [| done].
      injection Hs0 as ->. by rewrite Heq.
  - intros before after b m Hm Hf. unfold run_from.
    rewrite fold_left_app. by apply (failed_kept_run _ _ _ m).
Qed.

Lemma seed_step (st : loop_state) (r : TestResult.t) :
  is_data_driven_test (TestResult.name r) = true →
  recognized r = true →
  od_get (get_ddt_base_name (TestResult.name r)) (data_driven_tests st)
    = None →
  ∃ cr csr seed,
    convert_result self env r = (Some cr, [])
    ∧ convert_to_sub_test env r = (Some csr, [])
    ∧ seed = seed_node (get_ddt_base_name (TestResult.name r)) cr csr
    ∧ data_driven_tests (convert_step self env st (Some r))
      = data_driven_tests st
        ++ [(get_ddt_base_name (TestResult.name r), seed)]
    ∧ TestCaseResult.automated_test_name seed
      = get_ddt_base_name (TestResult.name r)
    ∧ TestCaseResult.result_group_type seed = Some "dataDriven"
    ∧ TestCaseResult.sub_results seed = Some [csr]
    ∧ TestSubResult.display_name csr = TestResult.name r
    ∧ TestCaseResult.test_case_title seed = TestResult.name r
    ∧ TestCaseResult.outcome seed = TestCaseResult.outcome cr
    ∧ non_data_driven_tests (convert_step self env st (Some r))
      = non_data_driven_tests st
    ∧ test_name_ordering (convert_step self env st (Some r))
      = <[get_ddt_base_name (TestResult.name r) := [TestResult.name r]]>
          (test_name_ordering st)
    ∧ test_name_ordering (convert_step self env st (Some r))
        !! get_ddt_base_name (TestResult.name r)
      = Some [TestResult.name r].
Proof.
  intros H Hrec Hget.
  assert (Hmem : od_mem (get_ddt_base_name (TestResult.name r))
                   (data_driven_tests st) = false)
    by (unfold od_mem; by rewrite Hget).
  destruct (step_variant_new self env st r H Hrec Hmem)
    as (cr & csr & Hcr & Hcsr & Hd & Hn & Ho).
  destruct (convert_cases self env r)
    as [(_ & n0 & s0 & Hn0 & Hs0 & _ & _ & _ & Htitle & _ & _ & Hdisp)
       | [? _]]; [| congruence].
  rewrite Hcr in Hn0. rewrite Hcsr in Hs0.
  injection Hn0 as <-. injection Hs0 as <-.
  exists cr, csr, (seed_node (get_ddt_base_name (TestResult.name r)) cr csr).
  rewrite Hd, Hn, Ho, od_set_fresh, lookup_insert_eq by done.
  by repeat split.
Qed.

(** A base name without an accepted variant so far is not a key of
    [data_driven_tests]. *)
Lemma unseen_base_absent (rs0 before : list (option TestResult.t))
  (b : string) :
  variants b before = [] →
  od_get b (data_driven_tests (run_from self env (initial_state rs0) before))
  = None.
Proof.
  intros Hnil.
  destruct (od_get b _) as [n |] eqn:Hn; [| done].
  destruct (inv_group _ _ _ _ (inv_run self env rs0 before) b n Hn)
    as (_ & _ & subs & HF & _ & Hne & _).
  rewrite Hnil in HF. by apply Forall2_nil_inv_l in HF.
Qed.

(** C8. When the loop meets a data-driven record with a recognized outcome
    whose base name has opened no group yet (no earlier record of that base
    name, or only ones that were skipped), the record is converted twice:
    the node, with its name overwritten by the base name, marked
    "dataDriven" and holding the sub-result as its only one, becomes the
    last value of [data_driven_tests], and the ordering entry of the base
    name is created with exactly the record's own name. *)
Theorem first_variant_seeds_group (rs0 before : list (option TestResult.t))
  (r : TestResult.t) :
  is_data_driven_test (TestResult.name r) = true →
  recognized r = true →
  variants (get_ddt_base_name (TestResult.name r)) before = [] →
  ∃ cr csr seed,
    convert_result self env r = (Some cr, [])
    ∧ convert_to_sub_test env r = (Some csr, [])
    ∧ seed = seed_node (get_ddt_base_name (TestResult.name r)) cr csr
    ∧ data_driven_tests
        (run_from self env (initial_state rs0) (before ++ [Some r]))
      = data_driven_tests (run_from self env (initial_state rs0) before)
        ++ [(get_ddt_base_name (TestResult.name r), seed)]
    ∧ TestCaseResult.automated_test_name seed
      = get_ddt_base_name (TestResult.name r)
    ∧ TestCaseResult.result_group_type seed = Some "dataDriven"
    ∧ TestCaseResult.sub_results seed = Some [csr]
    ∧ TestSubResult.display_name csr = TestResult.name r
    ∧ TestCaseResult.test_case_title seed = TestResult.name r
    ∧ TestCaseResult.outcome seed = TestCaseResult.outcome cr
    ∧ non_data_driven_tests
        (run_from self env (initial_state rs0) (before ++ [Some r]))
      = non_data_driven_tests (run_from self env (initial_state rs0) before)
    ∧ test_name_ordering
        (run_from self env (initial_state rs0) (before ++ [Some r]))
        !! get_ddt_base_name (TestResult.name r)
      = Some [TestResult.name r].
Proof.
  intros H Hrec Hnil. rewrite run_from_snoc.
  destruct (seed_step (run_from self env (initial_state rs0) before) r H Hrec
              (unseen_base_absent rs0 before _ Hnil))
    as (cr & csr & seed & H1 & H2 & H3 & H4 & H5 & H6 & H7 & H8 & H9 & H10
        & H11 & _ & H13).
  exists cr, csr, seed. by repeat split.
Qed.

(** C9. For a record with outcome "Skip" the node conversion puts the skip
    reason into the error message, while the sub-result conversion gives
    outcome "NotExecuted" with no error message and no stack trace, and
    does not depend on the skip reason at all. *)
Theorem skip_reason_asymmetry (r : TestResult.t) :
  TestResult.result r = "Skip" →
  (∃ n, convert_result self env r = (Some n, [])
        ∧ TestCaseResult.outcome n = "NotExecuted"
        ∧ TestCaseResult.error_message n
          = Some (text (TestResult.skip_reason r)))
  ∧ (∃ s, convert_to_sub_test env r = (Some s, [])
          ∧ TestSubResult.outcome s = "NotExecuted"
          ∧ TestSubResult.error_message s = None
          ∧ TestSubResult.stack_trace s = None
          ∧ ∀ reason,
              convert_to_sub_test env (with_skip_reason reason r)
              = (Some s, [])).
Proof.
  intros Hskip. unfold convert_result, convert_to_sub_test. simpl.
  rewrite Hskip. simpl. split; eexists; by repeat split.
Qed.

(** C3, as the code has it. The returned list holds the parent nodes of the
    groups first, in the order in which each base name is first carried by
    a data-driven record with a recognized outcome, and then the nodes of
    the records that are not data-driven, in input order. *)
Theorem grouped_nodes_first (rs : list (option TestResult.t)) :
  grouped_then_standalone self env (group_order rs) rs
    (convert_results self env rs).1.
Proof.
  pose proof (inv_convert_loop self env rs) as Hinv.
  exists (od_values (data_driven_tests (convert_loop self env rs))),
         (non_data_driven_tests (convert_loop self env rs)).
  split; [done |]. split; [| split; [| split]].
  - by rewrite grouped_names, (inv_keys _ _ _ _ Hinv).
  - apply Forall_forall. intros n Hn.
    by destruct (grouped_node_get rs n Hn) as (_ & ? & _).
  - apply Forall_forall. intros o Ho n ->.
    by destruct (standalone_node_plain rs n Ho).
  - by rewrite (inv_standalone _ _ _ _ Hinv), omap_id_fmap.
Qed.

(** When every data-driven record has a recognized outcome the two orders
    of base names agree. *)
Lemma group_order_all_recognized (rs : list (option TestResult.t)) :
  (∀ r, r ∈ records rs → recognized r = true) →
  group_order rs = base_name_order rs.
Proof.
  intros Hall. unfold group_order, base_name_order. do 2 f_equal.
  induction (records rs) as [| r l IH]; [done |].
  assert (Hr : recognized r = true) by (apply Hall; by left).
  assert (Hl : ∀ r', r' ∈ l → recognized r' = true)
    by (intros r' Hr'; apply Hall; by right).
  destruct (is_data_driven_test (TestResult.name r)) eqn:H.
  - rewrite !filter_cons_True by done. by rewrite IH.
  - rewrite !filter_cons_False by (rewrite H; intuition congruence).
    by apply IH.
Qed.

(** ** The ordering index *)

(** The entry of a base name that no record outside the groups bears lists
    the names of its accepted variants, in input order. *)
Lemma ordering_entry_without_collision (rs : list (option TestResult.t))
  (b : string) :
  (∀ r, r ∈ standalone rs → TestResult.name r ≠ b) →
  (convert_results self env rs).2 !! b =
  match variants b rs with
  | [] => None
  | vs => Some (TestResult.name <$> vs)
  end.
Proof. apply (inv_order_entry _ _ _ _ (inv_convert_loop self env rs)). Qed.

(** Every node of the returned list has its name in the ordering index, so
    the lookup in the variant branch of the loop never misses. *)
Lemma ordering_covers_nodes (rs : list (option TestResult.t))
  (n : TestCaseResult.t) :
  Some n ∈ (convert_results self env rs).1 →
  is_Some ((convert_results self env rs).2
             !! TestCaseResult.automated_test_name n).
Proof.
  pose proof (inv_convert_loop self env rs) as Hinv.
  unfold convert_results. simpl.
  intros [Hin | Hin]%elem_of_app.
  - apply list_elem_of_fmap in Hin as (n' & [= <-] & Hin).
    apply (inv_order_key _ _ _ _ Hinv). rewrite <- grouped_names.
    apply list_elem_of_fmap. by exists n.
  - rewrite (inv_standalone _ _ _ _ Hinv) in Hin.
    apply list_elem_of_fmap in Hin as (r & Hr & Hin).
    destruct (convert_cases self env r)
      as [(_ & n0 & s0 & Hn0 & _ & _ & _ & Hname & _) | (_ & Hn0 & _)];
      rewrite Hn0 in Hr; simpl in Hr; [| done].
    injection Hr as ->. rewrite Hname.
    by apply (inv_order_standalone _ _ _ _ Hinv).
Qed.

(** ** Records with an unknown outcome value *)

Lemma data_of_step (st st' : loop_state) (x : option TestResult.t) :
  data_of st = data_of st' →
  data_of (convert_step self env st x) = data_of (convert_step self env st' x).
Proof.
  destruct st, st'. unfold data_of. simpl. intros [= -> -> ->].
  unfold convert_step, add_log. simpl.
  repeat (case_match; simpl; try done).
Qed.

Lemma data_of_run (rs : list (option TestResult.t)) (st st' : loop_state) :
  data_of st = data_of st' →
  data_of (run_from self env st rs) = data_of (run_from self env st' rs).
Proof.
  revert st st'. induction rs as [| x rs IH]; intros st st' H; [done |].
  simpl. by apply IH, data_of_step.
Qed.

(** On both data-driven paths a record with an unknown outcome value leaves
    no trace in the returned pair: the batch gives what it gives without
    the record. *)
Lemma unrecognized_variant_skipped (before after : list (option TestResult.t))
  (r : TestResult.t) :
  is_data_driven_test (TestResult.name r) = true →
  recognized r = false →
  convert_results self env (before ++ Some r :: after)
  = convert_results self env (before ++ after).
Proof.
  intros H Hrec.
  assert (Hdata : data_of (convert_loop self env (before ++ Some r :: after))
                  = data_of (convert_loop self env (before ++ after))).
  { unfold convert_loop. rewrite !run_from_app, run_from_cons.
    apply data_of_run.
    destruct (step_unrecognized self env
                (run_from self env
                   (initial_state (before ++ Some r :: after)) before)
                r H Hrec)
      as (Hd & Hn & Ho & _).
    unfold data_of at 1. rewrite Hd, Hn, Ho.
    by apply (data_of_run before). }
  unfold convert_results. unfold data_of in Hdata.
  by injection Hdata as -> -> ->.
Qed.

(** On the remaining path the entry that the conversion returns, [None],
    is appended to the list like a node, and the ordering entry is
    registered. *)
Lemma unrecognized_standalone_kept (st : loop_state) (r : TestResult.t) :
  is_data_driven_test (TestResult.name r) = false →
  recognized r = false →
  non_data_driven_tests (convert_step self env st (Some r))
  = non_data_driven_tests st ++ [None]
  ∧ test_name_ordering (convert_step self env st (Some r))
    = <[TestResult.name r := []]> (test_name_ordering st)
  ∧ log (convert_step self env st (Some r))
    = log st ++ [unexpected_result r].
Proof.
  intros H Hrec.
  destruct (step_standalone self env st r H) as (_ & Hn & Ho & Hl).
  destruct (convert_cases self env r) as [[? _] | (_ & Hcr & _)];
    [congruence |].
  by rewrite Hn, Ho, Hl, Hcr.
Qed.

End grouping.

(** ** The attachment pass *)

(** *** The attachment map *)

Lemma results_with_attachments_snoc (rs : list (option TestResult.t))
  (x : option TestResult.t) :
  results_with_attachments (rs ++ [x])
  = match x with
    | Some r =>
        match TestResult.attachments r with
        | [] => results_with_attachments rs
        | _ :: _ => <[TestResult.name r := r]> (results_with_attachments rs)
        end
    | None => results_with_attachments rs
    end.
Proof. unfold results_with_attachments. by rewrite fold_left_app. Qed.

Lemma attachment_map_lookup (rs : list (option TestResult.t)) (k : string) :
  results_with_attachments rs !! k
  = last (filter (λ r, TestResult.name r = k ∧ TestResult.attachments r ≠ [])
            (records rs)).
Proof.
  induction rs as [| x rs IH] using rev_ind; [done |].
  rewrite results_with_attachments_snoc, records_snoc, filter_app.
  destruct x as [r |]; [| by rewrite app_nil_r].
  destruct (TestResult.attachments r) as [| a l] eqn:Hatt.
  - rewrite filter_cons_False by (rewrite Hatt; tauto).
    by rewrite filter_nil, app_nil_r.
  - destruct (decide (TestResult.name r = k)) as [<- | Hne].
    + rewrite lookup_insert_eq, filter_cons_True by (by rewrite Hatt).
      by rewrite filter_nil, last_snoc.
    + rewrite lookup_insert_ne by done.
      rewrite filter_cons_False by tauto.
      by rewrite filter_nil, app_nil_r.
Qed.

Lemma attachment_map_value (rs : list (option TestResult.t)) (k : string)
  (r : TestResult.t) :
  results_with_attachments rs !! k = Some r →
  Some r ∈ rs ∧ TestResult.name r = k ∧ TestResult.attachments r ≠ [].
Proof.
  rewrite attachment_map_lookup. intros Hlast.
  assert (Hin : r ∈ filter (λ r, TestResult.name r = k
                                 ∧ TestResult.attachments r ≠ [])
                      (records rs)).
  { destruct (filter _ _) as [| r0 l] using rev_ind; [done |].
    rewrite last_snoc in Hlast. injection Hlast as ->.
    apply elem_of_app. right. by left. }
  apply list_elem_of_filter in Hin as [[Hk Hatt] Hr].
  apply list_elem_of_omap in Hr as (x & Hx & Hid). simpl in Hid. by subst x.
Qed.


Section publishing.
Context (self : self_t) (env : environ) (b64encode : string → string).

Implicit Types (order : gmap string (list string))
  (rwa : gmap string TestResult.t) (p : TestCaseResult.t).

(** *** Steps that may raise *)

Lemma until_raise_elem (steps : list (effect + exn)) (e : effect) :
  e ∈ (until_raise steps).1 → inl e ∈ steps.
Proof.
  induction steps as [| [e0 | x] rest IH]; simpl.
  - by intros ?%elem_of_nil.
  - destruct (until_raise rest) as [t x']. simpl in *.
    intros [-> | He]%elem_of_cons; [by left | right; by apply IH].
  - by intros ?%elem_of_nil.
Qed.

Lemma until_raise_raised (steps : list (effect + exn)) (x : exn) :
  (until_raise steps).2 = Some x → inr x ∈ steps.
Proof.
  induction steps as [| [e0 | x0] rest IH]; simpl; [done | |].
  - destruct (until_raise rest) as [t x']. simpl in *.
    intros Hx. right. by apply IH.
  - intros [= ->]. by left.
Qed.

Lemma until_raise_all (steps : list (effect + exn)) :
  (∀ x, inr x ∉ steps) → until_raise steps = (effects_of steps, None).
Proof.
  unfold effects_of. induction steps as [| [e0 | x0] rest IH]; intros Hno.
  - done.
  - simpl. rewrite IH; [done |]. intros x Hx. apply (Hno x). by right.
  - destruct (Hno x0). by left.
Qed.

Lemma until_raise_none (steps : list (effect + exn)) :
  (until_raise steps).2 = None → until_raise steps = (effects_of steps, None).
Proof.
  intros Hnone. apply until_raise_all. intros x Hx.
  induction steps as [| [e0 | x0] rest IH]; simpl in *.
  - by apply elem_of_nil in Hx.
  - destruct (until_raise rest) as [t x']. simpl in *.
    apply elem_of_cons in Hx as [[=] | Hx]. by apply IH.
  - done.
Qed.

Lemma send_attachment_raises (a : TestResultAttachment.t) p (x : exn) :
  send_attachment self b64encode a p = inr x →
  x = TypeError ∧ TestResultAttachment.text a = None.
Proof.
  unfold send_attachment. destruct (TestResultAttachment.text a); [done |].
  by intros [= <-].
Qed.

Lemma send_sub_attachment_raises (a : TestResultAttachment.t) p
  (sid : option Z) (x : exn) :
  send_sub_attachment self b64encode a p sid = inr x →
  x = TypeError ∧ TestResultAttachment.text a = None.
Proof.
  unfold send_sub_attachment. destruct (TestResultAttachment.text a); [done |].
  by intros [= <-].
Qed.

(** *** One row *)

Lemma publish_step_rejected order rwa p :
  rejected p = true → publish_step self b64encode order rwa p = ([], None).
Proof. unfold publish_step. by intros ->. Qed.

(** What an exception of the body says about the row. *)
Lemma handle_attachments_raised order rwa p (x : exn) :
  (handle_attachments self b64encode order rwa p).2 = Some x →
  (x = KeyError (TestCaseResult.automated_test_name p)
   ∧ rwa !! TestCaseResult.automated_test_name p = None
   ∧ is_Some (TestCaseResult.sub_results p)
   ∧ order !! TestCaseResult.automated_test_name p = None)
  ∨ (x = TypeError
     ∧ ∃ k result a, rwa !! k = Some result
                     ∧ a ∈ TestResult.attachments result
                     ∧ TestResultAttachment.text a = None).
Proof.
  unfold handle_attachments.
  destruct (rwa !! TestCaseResult.automated_test_name p) as [result |] eqn:Hr.
  - intros Hx%until_raise_raised. right.
    apply elem_of_cons in Hx as [[=] | Hx].
    apply list_elem_of_fmap in Hx as (a & Ha & Hin).
    symmetry in Ha. apply send_attachment_raises in Ha as [-> Ht].
    split; [done |]. by exists (TestCaseResult.automated_test_name p), result, a.
  - destruct (TestCaseResult.sub_results p) as [subs |]; [| done].
    destruct (order !! _) as [names |] eqn:Ho.
    + intros Hx%until_raise_raised. right.
      apply elem_of_app in Hx as [Hx | Hx].
      { destruct (bool_decide _); [| by apply elem_of_nil in Hx].
        by apply list_elem_of_singleton in Hx. }
      apply list_elem_of_In, in_flat_map in Hx as ([nm sub] & _ & Hx).
      apply list_elem_of_In in Hx.
      destruct (rwa !! nm) as [result |] eqn:Hnm;
        [| by apply elem_of_nil in Hx].
      apply list_elem_of_fmap in Hx as (a & Ha & Hin).
      symmetry in Ha. apply send_sub_attachment_raises in Ha as [-> Ht].
      split; [done |]. by exists nm, result, a.
    + intros [= <-]. left. split; [done |]. split; [done |].
      split; [by eexists | done].
Qed.

(** *** The loop *)

Lemma publish_loop_app order rwa (l1 l2 : list TestCaseResult.t) :
  publish_loop self b64encode order rwa (l1 ++ l2)
  = match publish_loop self b64encode order rwa l1 with
    | (t, Some e) => (t, Some e)
    | (t, None) =>
        (t ++ (publish_loop self b64encode order rwa l2).1,
         (publish_loop self b64encode order rwa l2).2)
    end.
Proof.
  induction l1 as [| p l1 IH]; simpl.
  - by destruct (publish_loop _ _ _ _ l2).
  - destruct (publish_step self b64encode order rwa p) as [t [e |]];
      [done |].
    rewrite IH.
    destruct (publish_loop self b64encode order rwa l1) as [t1 [e1 |]];
      [done |].
    by rewrite app_assoc.
Qed.

Lemma publish_loop_handled order rwa (published : list TestCaseResult.t) :
  publish_loop self b64encode order rwa published
  = publish_loop self b64encode order rwa (handled published).
Proof.
  unfold handled. induction published as [| p l IH]; [done |].
  destruct (rejected p) eqn:Hrej.
  - rewrite filter_cons_False by congruence. simpl.
    rewrite publish_step_rejected by done. rewrite IH.
    generalize (publish_loop self b64encode order rwa
                  (filter (λ p0, rejected p0 = false) l)).
    by intros [t' e'].
  - rewrite filter_cons_True by done. simpl. by rewrite IH.
Qed.



Lemma publish_loop_raised order rwa (published : list TestCaseResult.t)
  (x : exn) :
  (publish_loop self b64encode order rwa published).2 = Some x →
  ∃ p, p ∈ published ∧ rejected p = false
       ∧ (handle_attachments self b64encode order rwa p).2 = Some x.
Proof.
  induction published as [| p l IH]; simpl; [done |].
  unfold publish_step at 1. destruct (rejected p) eqn:Hrej.
  - destruct (publish_loop self b64encode order rwa l) as [t' e']. simpl in *.
    intros Hx. destruct (IH Hx) as (q & Hq & ?). exists q. split; [by right | done].
  - destruct (handle_attachments self b64encode order rwa p) as [t [e |]] eqn:Hp.
    + intros [= ->]. exists p. split; [by left |]. by rewrite Hp.
    + destruct (publish_loop self b64encode order rwa l) as [t' e']. simpl in *.
      intros Hx. destruct (IH Hx) as (q & Hq & ?). exists q.
      split; [by right | done].
Qed.

Lemma upload_batch_unfold
  (service : list (option TestCaseResult.t) → string → option Z
             → list TestCaseResult.t)
  (rs : list (option TestResult.t)) :
  upload_batch self env b64encode service rs
  = publish_loop self b64encode (convert_results self env rs).2
      (results_with_attachments rs)
      (service (convert_results self env rs).1
         (team_project self) (test_run_id self)).
Proof.
  unfold upload_batch, publish_results.
  by destruct (convert_results self env rs).
Qed.

(** On a round trip the lookup in the ordering index never misses. *)
Lemma upload_batch_no_key_error
  (service : list (option TestCaseResult.t) → string → option Z
             → list TestCaseResult.t)
  (rs : list (option TestResult.t)) (k : string) :
  (∀ p, p ∈ service (convert_results self env rs).1
              (team_project self) (test_run_id self) →
        ∃ n, Some n ∈ (convert_results self env rs).1
             ∧ TestCaseResult.automated_test_name p
               = TestCaseResult.automated_test_name n) →
  (upload_batch self env b64encode service rs).2 ≠ Some (KeyError k).
Proof.
  intros Hecho. rewrite upload_batch_unfold.
  intros (p & Hp & _ & Hx)%publish_loop_raised.
  apply handle_attachments_raised in Hx
    as [(_ & _ & _ & Hnone) | [[=] _]].
  destruct (Hecho p Hp) as (n & Hn & Hname).
  apply (ordering_covers_nodes self env rs) in Hn as [l Hl].
  rewrite Hname in Hnone. congruence.
Qed.

Lemma upload_batch_no_type_error
  (service : list (option TestCaseResult.t) → string → option Z
             → list TestCaseResult.t)
  (rs : list (option TestResult.t)) :
  attachments_have_text rs →
  (upload_batch self env b64encode service rs).2 ≠ Some TypeError.
Proof.
  intros Htext. rewrite upload_batch_unfold.
  intros (p & _ & _ & Hx)%publish_loop_raised.
  apply handle_attachments_raised in Hx
    as [([=] & _) | (_ & k & result & a & Hk & Ha & Hnone)].
  apply attachment_map_value in Hk as (Hr & _ & _).
  destruct (Htext result a Hr Ha) as [t Ht]. congruence.
Qed.


(** C5, as the code has it. For an accepted row that has no attachment
    under its own name, carries sub-results and has an ordering entry whose
    length differs from their number, the step logs the warning first and
    then tries, for each pair of the zip of the recorded names with the
    returned sub-results, the upload of the attachments stored under the
    name; the zip has the length of the shorter list. The step raises no
    [KeyError]; when the attachments it meets have text it is the warning
    followed by all these uploads, and raises nothing. *)
Theorem length_mismatch_warns order rwa p
  (names : list string) (subs : list TestSubResult.t) :
  rejected p = false →
  rwa !! TestCaseResult.automated_test_name p = None →
  TestCaseResult.sub_results p = Some subs →
  order !! TestCaseResult.automated_test_name p = Some names →
  length names ≠ length subs →
  publish_step self b64encode order rwa p
  = until_raise
      (inl (Log length_warning)
       :: flat_map
            (λ '(name, sub_result),
               match rwa !! name with
               | Some result =>
                   (λ a, send_sub_attachment self b64encode a p
                           (TestSubResult.id sub_result))
                     <$> TestResult.attachments result
               | None => []
               end)
            (zip names subs))
  ∧ length (zip names subs) = (length names `min` length subs)%nat
  ∧ (∀ k, (publish_step self b64encode order rwa p).2 ≠ Some (KeyError k))
  ∧ ((∀ k result a, rwa !! k = Some result →
                    a ∈ TestResult.attachments result →
                    is_Some (TestResultAttachment.text a)) →
     publish_step self b64encode order rwa p
     = (Log length_warning
        :: effects_of
             (flat_map
                (λ '(name, sub_result),
                   match rwa !! name with
                   | Some result =>
                       (λ a, send_sub_attachment self b64encode a p
                               (TestSubResult.id sub_result))
                         <$> TestResult.attachments result
                   | None => []
                   end)
                (zip names subs)),
        None)).
Proof.
  intros Hrej Hrwa Hsub Hord Hlen.
  assert (Hstep : publish_step self b64encode order rwa p
                  = handle_attachments self b64encode order rwa p)
    by (unfold publish_step; by rewrite Hrej).
  assert (Heq : handle_attachments self b64encode order rwa p
                = until_raise
      (inl (Log length_warning)
       :: flat_map
            (λ '(name, sub_result),
               match rwa !! name with
               | Some result =>
                   (λ a, send_sub_attachment self b64encode a p
                           (TestSubResult.id sub_result))
                     <$> TestResult.attachments result
               | None => []
               end)
            (zip names subs))).
  { unfold handle_attachments. rewrite Hrwa, Hsub, Hord.
    rewrite bool_decide_eq_true_2 by done. reflexivity. }
  split; [by rewrite Hstep, Heq |].
  split; [apply length_zip_with |]. split.
  - intros k Hk. rewrite Hstep in Hk.
    apply handle_attachments_raised in Hk
      as [(_ & _ & _ & Hnone) | [[=] _]]. congruence.
  - intros Htext. rewrite Hstep.
    assert (Hx : (handle_attachments self b64encode order rwa p).2 = None).
    { destruct (handle_attachments self b64encode order rwa p).2
        as [x |] eqn:Hr; [| done].
      apply handle_attachments_raised in Hr
        as [(_ & _ & _ & Hnone) | (_ & k & result & a & Hk & Ha & Ht)];
        [congruence |].
      destruct (Htext k result a Hk Ha) as [? ?]. congruence. }
    rewrite Heq in Hx |- *. by rewrite (until_raise_none _ Hx).
Qed.


End publishing.

(** * The properties on concrete batches *)

(** The example of the specification. *)
Example spec_batch_nodes :
  (convert_results self0 env0 spec_batch).1
  = [Some spec_parent;
     Some (TestCaseResult.mk "B" "B" "junit" "workitem" 1
             (duration_ms (record "B" "Pass" [])) "Passed" "Completed"
             None None (comment env0) None None None)]
  ∧ (convert_results self0 env0 spec_batch).2
    = <["A" := ["A(1)"; "A(2)"]]> {["B" := []]}.
Proof. split; vm_compute; reflexivity. Qed.

(** C1 on the parent node of the specification's example. *)
Lemma grouped_outcome_invariant_witness :
  Some spec_parent ∈ (convert_results self0 env0 spec_batch).1
  ∧ (TestCaseResult.outcome spec_parent = "Failed"
     ↔ ∃ s, s ∈ default [] (TestCaseResult.sub_results spec_parent)
            ∧ TestSubResult.outcome s = "Failed").
Proof.
  assert (Hin : Some spec_parent ∈ (convert_results self0 env0 spec_batch).1)
    by (vm_compute; left).
  split; [exact Hin |].
  refine (proj1 (grouped_outcome_invariant self0 env0 spec_batch spec_parent
                   _ Hin eq_refl _)).
  discriminate.
Defined.

(** C7 on a parameterized name. *)
Lemma data_driven_classification_witness :
  get_ddt_base_name "Suite.Case(x: 1)" = "Suite.Case".
Proof.
  apply (proj1 (proj2 (data_driven_classification "Suite.Case(x: 1)"))
           "Suite.Case" "x: 1)").
  - reflexivity.
  - compute_done.
Defined.

(** C2 on [collision_batch]. The group A holds the sub-result of A(1), but
    the record named A, coming later, resets the ordering entry of A: the
    entry is empty although a variant of A was folded into the group. *)
Theorem collision_resets_ordering :
  (convert_results self0 env0 collision_batch).2 !! "A" = Some []
  ∧ TestResult.name <$> variants "A" collision_batch = ["A(1)"]
  ∧ node_summary <$> omap id (convert_results self0 env0 collision_batch).1
    = [("A", Some ["A(1)"]); ("A", None)].
Proof. repeat split; vm_compute; reflexivity. Qed.

(** C3 on [late_seed_batch]. The base name A appears first in the input,
    on a record with an unknown outcome value; the group B is returned
    before the group A. *)
Lemma late_seed_not_in_input_order :
  ¬ grouped_then_standalone self0 env0 (base_name_order late_seed_batch)
      late_seed_batch (convert_results self0 env0 late_seed_batch).1.
Proof.
  intros (grouped & tail & Hnodes & Hnames & _).
  assert (Hfst : TestCaseResult.automated_test_name
                   <$> omap id (take 2 (convert_results self0 env0
                                          late_seed_batch).1)
                 = ["B"; "A"]) by (vm_compute; reflexivity).
  assert (Hord : base_name_order late_seed_batch = ["A"; "B"])
    by (vm_compute; reflexivity).
  rewrite Hnodes in Hfst. rewrite Hord in Hnames.
  destruct grouped as [| g1 [| g2 [| g3 grouped]]]; try discriminate.
  simpl in Hfst. injection Hfst as Hg1 _. injection Hnames as Hg1' _.
  congruence.
Qed.

Example late_seed_order :
  TestCaseResult.automated_test_name
    <$> omap id (convert_results self0 env0 late_seed_batch).1 = ["B"; "A"]
  ∧ group_order late_seed_batch = ["B"; "A"]
  ∧ base_name_order late_seed_batch = ["A"; "B"].
Proof. repeat split; vm_compute; reflexivity. Qed.

(** C6 on [unknown_standalone_batch]. The record is not data-driven and
    its outcome value is unknown: the returned list has the entry [None]
    for it and the ordering index an entry under its name, where the batch
    without the record gives an empty list and an empty index. *)
Theorem unknown_standalone_not_skipped :
  recognized (record "B" "Error" []) = false
  ∧ convert_results self0 env0 unknown_standalone_batch
    = ([None], {["B" := []]})
  ∧ convert_results self0 env0 [] = ([], ∅).
Proof. repeat split; vm_compute; reflexivity. Qed.

(** C8 on [late_seed_batch]: the third record opens the group A. *)
Lemma first_variant_seeds_group_witness :
  test_name_ordering
    (run_from self0 env0 (initial_state late_seed_batch)
       ([Some (record "A(1)" "Error" []); Some (record "B(1)" "Pass" [])]
        ++ [Some (record "A(2)" "Pass" [])])) !! "A"
  = Some ["A(2)"].
Proof.
  destruct (first_variant_seeds_group self0 env0 late_seed_batch
              [Some (record "A(1)" "Error" []);
               Some (record "B(1)" "Pass" [])]
              (record "A(2)" "Pass" []))
    as (cr & csr & seed & H);
    [reflexivity | reflexivity | vm_compute; reflexivity |].
  apply H.
Defined.

(** C9 on a skipped variant. *)
Lemma skip_reason_asymmetry_witness :
  ∃ s, convert_to_sub_test env0 (record "B(1)" "Skip" []) = (Some s, [])
       ∧ TestSubResult.outcome s = "NotExecuted"
       ∧ TestSubResult.error_message s = None
       ∧ TestSubResult.stack_trace s = None
       ∧ ∀ reason,
           convert_to_sub_test env0
             (with_skip_reason reason (record "B(1)" "Skip" []))
           = (Some s, []).
Proof.
  apply (skip_reason_asymmetry self0 env0 (record "B(1)" "Skip" [])).
  reflexivity.
Defined.


Lemma published_as_name (i : Z) (n : TestCaseResult.t) :
  TestCaseResult.automated_test_name (published_as i n)
  = TestCaseResult.automated_test_name n.
Proof. done. Qed.




(** C5 on two rows that carry one sub-result while the ordering entry of
    their name has two: the rejected row, and the accepted row whose own
    name is a key of the attachment map. Neither step logs the warning,
    and neither pairs names with sub-results. *)
Lemma length_mismatch_unnoticed :
  TestCaseResult.sub_results rejected_row = Some [sub_row "A(1)" 1]
  ∧ TestCaseResult.sub_results parent_row = Some [sub_row "A(1)" 1]
  ∧ two_variants_order !! "A" = Some ["A(1)"; "A(2)"]
  ∧ (Log length_warning
      ∉ (publish_step self0 plain two_variants_order variant_attachments
           rejected_row).1)
  ∧ (Log length_warning
      ∉ (publish_step self0 plain two_variants_order
           (results_with_attachments attachment_batch) parent_row).1).
Proof.
  assert (Hrej : publish_step self0 plain two_variants_order
                   variant_attachments rejected_row = ([], None))
    by (vm_compute; reflexivity).
  assert (Hpar : publish_step self0 plain two_variants_order
                   (results_with_attachments attachment_batch) parent_row
                 = ([Log (DEBUG, "Result A has an attachment");
                     Call (create_test_result_attachment "Console_Output.log"
                             "parent" "public" (Some 42) (Some 7))],
                    None))
    by (vm_compute; reflexivity).
  rewrite Hrej, Hpar. unfold length_warning. simpl.
  do 3 (split; [reflexivity |]). split.
  - apply not_elem_of_nil.
  - intros H. apply elem_of_cons in H as [H | H]; [discriminate H |].
    apply elem_of_cons in H as [H | H]; [discriminate H |].
    by apply elem_of_nil in H.
Qed.

(** C5 on the accepted parent row of A, one sub-result returned, two names
    recorded: the warning, then the attachment of the first variant on the
    first sub-result. *)
Lemma length_mismatch_warns_witness :
  publish_step self0 plain two_variants_order variant_attachments parent_row
  = ([Log length_warning;
      Call (create_test_sub_result_attachment "Console_Output.log" "variant"
              "public" (Some 42) (Some 7) (Some 1))],
     None).
Proof.
  destruct (length_mismatch_warns self0 plain two_variants_order
              variant_attachments parent_row ["A(1)"; "A(2)"]
              [sub_row "A(1)" 1])
    as (Heq & _); [reflexivity | reflexivity | reflexivity | reflexivity | |].
  - simpl. lia.
  - rewrite Heq. vm_compute. reflexivity.
Defined.


(** The whole of [upload_batch] on [attachment_batch]: the base name of the
    group equals the name of a record with an attachment, so that
    attachment goes to the parent row of the group (100) and to the row of
    the record itself (101), and the attachment of the variant A(1) is
    never uploaded. *)
Example upload_batch_collision :
  upload_batch self0 env0 plain echo_service attachment_batch
  = ([Log (DEBUG, "Result A has an attachment");
      Call (create_test_result_attachment "Console_Output.log" "parent"
              "public" (Some 42) (Some 100));
      Log (DEBUG, "Result A has an attachment");
      Call (create_test_result_attachment "Console_Output.log" "parent"
              "public" (Some 42) (Some 101))],
     None).
Proof. vm_compute. reflexivity. Qed.

(** * Further properties of the grouping engine *)

Section grouping_more.
Context (self : self_t) (env : environ).

Lemma data_of_any_count (rs0 rs1 rs : list (option TestResult.t)) :
  data_of (run_from self env (initial_state rs0) rs)
  = data_of (run_from self env (initial_state rs1) rs).
Proof. by apply data_of_run. Qed.

Lemma convert_results_data (rs : list (option TestResult.t)) :
  convert_results self env rs
  = ((Some <$> od_values (data_of (convert_loop self env rs)).1.1)
       ++ (data_of (convert_loop self env rs)).1.2,
     (data_of (convert_loop self env rs)).2).
Proof. done. Qed.

(** X1. An entry that the loop skips leaves no trace in the returned pair:
    a [None] entry, and a data-driven record with an unknown outcome value,
    can be removed from the batch without changing the nodes or the
    ordering index. *)
Theorem skipped_entries_leave_no_trace
  (before after : list (option TestResult.t)) (x : option TestResult.t) :
  (x = None
   ∨ ∃ r, x = Some r ∧ is_data_driven_test (TestResult.name r) = true
          ∧ recognized r = false) →
  convert_results self env (before ++ x :: after)
  = convert_results self env (before ++ after).
Proof.
  intros [-> | (r & -> & H & Hrec)]; [| by apply unrecognized_variant_skipped].
  rewrite !convert_results_data. unfold convert_loop.
  rewrite !run_from_app, run_from_cons. cbn [convert_step].
  by rewrite (data_of_run self env after
                (run_from self env (initial_state (before ++ None :: after))
                   before)
                (run_from self env (initial_state (before ++ after)) before)
                (data_of_any_count _ _ before)).
Qed.

(** X2. A record that is not data-driven, coming last, appends exactly what
    its conversion returns (a node, or [None] for an unknown outcome value)
    to the node list and sets the ordering entry under its own name to the
    empty list, whatever that entry held. *)
Theorem standalone_record_appended (before : list (option TestResult.t))
  (r : TestResult.t) :
  is_data_driven_test (TestResult.name r) = false →
  convert_results self env (before ++ [Some r])
  = ((convert_results self env before).1 ++ [(convert_result self env r).1],
     <[TestResult.name r := []]> (convert_results self env before).2).
Proof.
  intros H. unfold convert_results at 1. unfold convert_loop.
  rewrite run_from_snoc.
  destruct (step_standalone self env
              (run_from self env (initial_state (before ++ [Some r])) before)
              r H) as (Hd & Hn & Ho & _).
  rewrite Hd, Hn, Ho.
  pose proof (data_of_any_count (before ++ [Some r]) before before) as Hdata.
  unfold data_of in Hdata. injection Hdata as -> -> ->.
  unfold convert_results, convert_loop. simpl. by rewrite app_assoc.
Qed.

Lemma omap_id_Some {A : Type} (l : list A) : omap id (Some <$> l) = l.
Proof. induction l as [| a l IH]; [done |]. csimpl. by rewrite IH. Qed.

Lemma filter_all {A : Type} (P : A → Prop) `{!∀ x, Decision (P x)}
  (l : list A) : Forall P l → filter P l = l.
Proof.
  induction 1 as [| a l Ha _ IH]; [done |].
  by rewrite filter_cons_True, IH.
Qed.

Lemma filter_none {A : Type} (P : A → Prop) `{!∀ x, Decision (P x)}
  (l : list A) : Forall (λ x, ¬ P x) l → filter P l = [].
Proof.
  induction 1 as [| a l Ha _ IH]; [done |].
  by rewrite filter_cons_False.
Qed.

Lemma variants_nonempty_key (rs : list (option TestResult.t)) (b : string) :
  variants b rs ≠ [] ↔
  b ∈ od_keys (data_driven_tests (convert_loop self env rs)).
Proof.
  pose proof (inv_convert_loop self env rs) as Hinv. split.
  - intros Hne. apply od_mem_keys. unfold od_mem.
    destruct (od_get b _) eqn:Hb; [done |].
    by apply (inv_absent _ _ _ _ Hinv) in Hb.
  - intros Hk%od_mem_keys Hnil. unfold od_mem in Hk.
    destruct (od_get b _) as [n |] eqn:Hb; [| done].
    destruct (inv_group _ _ _ _ Hinv b n Hb) as (_ & _ & subs & HF & _ & Hne & _).
    rewrite Hnil in HF. by apply Forall2_nil_inv_l in HF.
Qed.

Lemma od_get_values {V : Type} (k : string) (v : V) (d : odict V) :
  od_get k d = Some v → v ∈ od_values d.
Proof.
  unfold od_values. induction d as [| [k0 v0] d IH]; simpl; [done |].
  destruct (String.eqb k k0).
  - intros [= ->]. by left.
  - intros H. right. by apply IH.
Qed.

(** X3. The returned list has one parent node per group and one entry per
    record that is not data-driven: no two parent nodes bear the same name,
    and the length of the list is the number of groups plus the number of
    such records. *)
Theorem one_node_per_group (rs : list (option TestResult.t)) :
  NoDup (TestCaseResult.automated_test_name
           <$> filter (λ n, TestCaseResult.result_group_type n
                            = Some "dataDriven")
                 (omap id (convert_results self env rs).1))
  ∧ length (convert_results self env rs).1
    = (length (group_order rs) + length (standalone rs))%nat.
Proof.
  pose proof (inv_convert_loop self env rs) as Hinv.
  unfold convert_results. simpl. split.
  - rewrite omap_app, omap_id_Some, filter_app.
    rewrite filter_all, filter_none, app_nil_r.
    + rewrite grouped_names, (inv_keys _ _ _ _ Hinv). apply NoDup_first_seen.
    + apply Forall_forall. intros n (o & Ho & Hn)%list_elem_of_omap.
      simpl in Hn. subst o.
      destruct (standalone_node_plain self env rs n Ho) as [_ Hty].
      by rewrite Hty.
    + apply Forall_forall. intros n Hn.
      by destruct (grouped_node_get self env rs n Hn) as (_ & ? & _).
  - rewrite length_app, length_fmap.
    rewrite (inv_standalone _ _ _ _ Hinv), length_fmap.
    rewrite <- (inv_keys _ _ _ _ Hinv). unfold od_keys, od_values.
    by rewrite !length_fmap.
Qed.

(** X4. The sub-results of a parent node are the conversions of the
    accepted variants of its base name, in input order, so their display
    names are the names of those records; and unless a record outside the
    groups bears the base name, the ordering entry of the node is exactly
    the list of these display names, position by position. *)
Theorem sub_results_follow_variants (rs : list (option TestResult.t))
  (n : TestCaseResult.t) :
  Some n ∈ (convert_results self env rs).1 →
  TestCaseResult.result_group_type n = Some "dataDriven" →
  ∃ subs,
    TestCaseResult.sub_results n = Some subs
    ∧ Forall2 (λ r s, convert_to_sub_test env r = (Some s, []))
        (variants (TestCaseResult.automated_test_name n) rs) subs
    ∧ TestSubResult.display_name <$> subs
      = TestResult.name
          <$> variants (TestCaseResult.automated_test_name n) rs
    ∧ ((∀ r, r ∈ standalone rs →
             TestResult.name r ≠ TestCaseResult.automated_test_name n) →
       (convert_results self env rs).2
         !! TestCaseResult.automated_test_name n
       = Some (TestSubResult.display_name <$> subs)).
Proof.
  intros Hin Hty. unfold convert_results in Hin. simpl in Hin.
  apply elem_of_app in Hin as [Hin | Hin].
  2:{ apply standalone_node_plain in Hin as [_ ?]. congruence. }
  apply list_elem_of_fmap in Hin as (n' & [= <-] & Hin).
  destruct (grouped_node_get self env rs n Hin)
    as (_ & _ & subs & HF & Hsub & Hne & _).
  exists subs. split; [done |].
  assert (HF' : Forall2 (λ r s, convert_to_sub_test env r = (Some s, [])
                                ∧ TestSubResult.display_name s
                                  = TestResult.name r)
                  (variants (TestCaseResult.automated_test_name n) rs) subs).
  { eapply Forall2_impl; [exact HF |]. intros r s Hs. simpl in Hs.
    destruct (convert_cases self env r)
      as [(_ & n1 & s1 & _ & Hs1 & _ & _ & _ & _ & _ & _ & Hd)
         | (_ & _ & Hs1)]; rewrite Hs1 in Hs; simpl in Hs; [| done].
    injection Hs as ->. by rewrite Hs1. }
  assert (Hnames : TestSubResult.display_name <$> subs
                   = TestResult.name
                       <$> variants (TestCaseResult.automated_test_name n) rs).
  { clear -HF'. induction HF' as [| r s vs ss [_ Hd] _ IH]; [done |].
    csimpl. by rewrite Hd, IH. }
  split; [eapply Forall2_impl; [exact HF' | by intros ?? [? _]] |].
  split; [done |].
  intros Hfree. rewrite (ordering_entry_without_collision self env rs _ Hfree).
  rewrite Hnames.
  destruct (variants (TestCaseResult.automated_test_name n) rs);
    [| done].
  apply Forall2_nil_inv_l in HF. by destruct Hne.
Qed.

(** X5. No record with a recognized outcome is lost: a data-driven one is
    a sub-result of the parent node named by its base name, and any other
    one has its own node in the returned list. *)
Theorem accepted_records_kept (rs : list (option TestResult.t))
  (r : TestResult.t) :
  Some r ∈ rs →
  recognized r = true →
  if is_data_driven_test (TestResult.name r)
  then ∃ n subs s,
         Some n ∈ (convert_results self env rs).1
         ∧ TestCaseResult.automated_test_name n
           = get_ddt_base_name (TestResult.name r)
         ∧ TestCaseResult.sub_results n = Some subs
         ∧ s ∈ subs
         ∧ convert_to_sub_test env r = (Some s, [])
  else ∃ n,
         convert_result self env r = (Some n, [])
         ∧ Some n ∈ (convert_results self env rs).1.
Proof.
  intros Hin Hrec. pose proof (inv_convert_loop self env rs) as Hinv.
  assert (Hr : r ∈ records rs).
  { apply list_elem_of_omap. by exists (Some r). }
  destruct (convert_cases self env r)
    as [(_ & n0 & s0 & Hn0 & Hs0 & _) | [? _]]; [| congruence].
  destruct (is_data_driven_test (TestResult.name r)) eqn:H.
  - assert (Hv : r ∈ variants (get_ddt_base_name (TestResult.name r)) rs).
    { unfold variants. by apply list_elem_of_filter. }
    assert (Hne : variants (get_ddt_base_name (TestResult.name r)) rs ≠ []).
    { intros Hnil. rewrite Hnil in Hv. by apply elem_of_nil in Hv. }
    apply variants_nonempty_key, od_mem_keys in Hne. unfold od_mem in Hne.
    destruct (od_get _ _) as [n |] eqn:Hget; [| done].
    destruct (inv_group _ _ _ _ Hinv _ n Hget)
      as (Hname & _ & subs & HF & Hsub & _).
    apply list_elem_of_lookup in Hv as [i Hi].
    destruct (Forall2_lookup_l _ _ _ _ _ HF Hi) as (s & Hs & Hconv).
    exists n, subs, s. split.
    { unfold convert_results. simpl. apply elem_of_app. left.
      apply list_elem_of_fmap. exists n. split; [done |].
      by eapply od_get_values. }
    do 2 (split; [done |]).
    split; [apply list_elem_of_lookup; by exists i |].
    rewrite Hs0 in Hconv. simpl in Hconv. by injection Hconv as ->.
  - exists n0. split; [done |].
    unfold convert_results. simpl. apply elem_of_app. right.
    rewrite (inv_standalone _ _ _ _ Hinv). apply list_elem_of_fmap.
    exists r. split; [by rewrite Hn0 |].
    unfold standalone. by apply list_elem_of_filter.
Qed.

(** X6. The keys of the ordering index are the names of the records that
    are not data-driven together with the base names that have an accepted
    variant. *)
Theorem ordering_keys (rs : list (option TestResult.t)) (b : string) :
  is_Some ((convert_results self env rs).2 !! b)
  ↔ (∃ r, r ∈ standalone rs ∧ TestResult.name r = b) ∨ variants b rs ≠ [].
Proof.
  pose proof (inv_convert_loop self env rs) as Hinv. split.
  - intros Hsome.
    destruct (decide (Exists (λ r, TestResult.name r = b) (standalone rs)))
      as [Hex | Hnex].
    + left. by apply Exists_exists in Hex.
    + right. intros Hnil.
      rewrite (ordering_entry_without_collision self env rs b) in Hsome.
      * rewrite Hnil in Hsome. by destruct Hsome.
      * intros r Hr Hb. apply Hnex, Exists_exists. by exists r.
  - intros [(r & Hr & <-) | Hne].
    + by apply (inv_order_standalone _ _ _ _ Hinv).
    + by apply (inv_order_key _ _ _ _ Hinv), variants_nonempty_key.
Qed.

Lemma seed_kept (rs0 rs : list (option TestResult.t)) (b : string)
  (n : TestCaseResult.t) :
  od_get b (data_driven_tests (run_from self env (initial_state rs0) rs))
    = Some n →
  ∃ r0 cr,
    head (variants b rs) = Some r0
    ∧ convert_result self env r0 = (Some cr, [])
    ∧ TestCaseResult.set_outcome EmptyString
        (TestCaseResult.set_sub_results None n)
      = TestCaseResult.set_outcome EmptyString
          (TestCaseResult.set_sub_results None
             (TestCaseResult.set_result_group_type (Some "dataDriven")
                (TestCaseResult.set_automated_test_name b cr))).
Proof.
  revert n. induction rs as [| x rs IH] using rev_ind; intros n; [done |].
  rewrite run_from_snoc.
  set (st := run_from self env (initial_state rs0) rs) in *.
  destruct x as [r |]; [| rewrite variants_snoc_None; apply IH].
  destruct (is_data_driven_test (TestResult.name r)) eqn:H.
  2:{ destruct (step_standalone self env st r H) as (-> & _).
      rewrite variants_snoc_out by (by left). apply IH. }
  destruct (recognized r) eqn:Hrec.
  2:{ destruct (step_unrecognized self env st r H Hrec) as (-> & _).
      rewrite variants_snoc_out by (by right; right). apply IH. }
  destruct (od_mem (get_ddt_base_name (TestResult.name r))
              (data_driven_tests st)) eqn:Hmem.
  - destruct (step_variant_seen self env st r H Hrec Hmem) as (s & _ & -> & _).
    rewrite od_get_seen.
    destruct (String.eqb_spec b (get_ddt_base_name (TestResult.name r)))
      as [Heq | Hne].
    + destruct (od_get b (data_driven_tests st)) as [n0 |] eqn:Hn0; [| done].
      simpl. intros [= <-].
      destruct (IH n0 eq_refl) as (r0 & cr & Hhead & Hcr & Hsame).
      exists r0, cr. rewrite variants_snoc_in by done.
      split; [by destruct (variants b rs) |]. split; [done |].
      rewrite <- Hsame. by destruct (failed s), n0.
    + rewrite variants_snoc_out by (right; left; congruence). apply IH.
  - destruct (step_variant_new self env st r H Hrec Hmem)
      as (cr & csr & Hcr & _ & -> & _).
    pose proof (od_mem_false_get _ _ Hmem) as Hget.
    rewrite od_set_fresh, od_get_app_fresh by done.
    destruct (String.eqb_spec b (get_ddt_base_name (TestResult.name r)))
      as [Heq | Hne].
    + intros [= <-]. exists r, cr. rewrite variants_snoc_in by done.
      rewrite (inv_absent _ _ _ _ (inv_run self env rs0 rs) b)
        by (by rewrite Heq).
      by rewrite Heq.
    + rewrite variants_snoc_out by (right; left; congruence). apply IH.
Qed.

(** X7. A parent node keeps what the conversion of the first accepted
    variant of its group gave: title, type, storage, duration, error
    message, stack trace and comment. Later variants change the outcome
    and the sub-results only, so a parent whose first variant passed
    carries no error message and no stack trace even when a later variant
    made it "Failed". *)
Theorem parent_keeps_first_variant (rs : list (option TestResult.t))
  (n : TestCaseResult.t) :
  Some n ∈ (convert_results self env rs).1 →
  TestCaseResult.result_group_type n = Some "dataDriven" →
  ∃ r0 cr,
    head (variants (TestCaseResult.automated_test_name n) rs) = Some r0
    ∧ convert_result self env r0 = (Some cr, [])
    ∧ TestCaseResult.test_case_title n = TestResult.name r0
    ∧ TestCaseResult.automated_test_type n = TestResult.kind r0
    ∧ TestCaseResult.automated_test_storage n = work_item_name self
    ∧ TestCaseResult.duration_in_ms n = duration_ms r0
    ∧ TestCaseResult.error_message n = TestCaseResult.error_message cr
    ∧ TestCaseResult.stack_trace n = TestCaseResult.stack_trace cr
    ∧ TestCaseResult.comment n = comment env
    ∧ (TestResult.result r0 = "Pass" →
       TestCaseResult.error_message n = None
       ∧ TestCaseResult.stack_trace n = None).
Proof.
  intros Hin Hty. unfold convert_results in Hin. simpl in Hin.
  apply elem_of_app in Hin as [Hin | Hin].
  2:{ apply standalone_node_plain in Hin as [_ ?]. congruence. }
  apply list_elem_of_fmap in Hin as (n' & [= <-] & Hin).
  pose proof (inv_convert_loop self env rs) as Hinv.
  apply od_values_get in Hin as [b Hb];
    [| rewrite (inv_keys _ _ _ _ Hinv); apply NoDup_first_seen].
  destruct (inv_group _ _ _ _ Hinv b n Hb) as (Hname & _).
  destruct (seed_kept rs rs b n Hb) as (r0 & cr & Hhead & Hcr & Hsame).
  exists r0, cr. rewrite Hname. do 2 (split; [done |]).
  assert (Hfields :
    TestCaseResult.test_case_title n = TestCaseResult.test_case_title cr
    ∧ TestCaseResult.automated_test_type n
      = TestCaseResult.automated_test_type cr
    ∧ TestCaseResult.automated_test_storage n
      = TestCaseResult.automated_test_storage cr
    ∧ TestCaseResult.duration_in_ms n = TestCaseResult.duration_in_ms cr
    ∧ TestCaseResult.error_message n = TestCaseResult.error_message cr
    ∧ TestCaseResult.stack_trace n = TestCaseResult.stack_trace cr
    ∧ TestCaseResult.comment n = TestCaseResult.comment cr).
  { destruct n, cr. simpl in Hsame. injection Hsame as -> _ -> -> -> -> -> -> -> -> _.
    by repeat split. }
  destruct Hfields as (-> & -> & -> & -> & -> & -> & ->).
  clear Hsame Hb Hhead.
  unfold convert_result in Hcr.
  destruct (String.eqb_spec (TestResult.result r0) "Pass") as [HP | HP].
  { injection Hcr as <-. simpl. by repeat split. }
  destruct (String.eqb (TestResult.result r0) "Fail").
  { injection Hcr as <-. simpl. by repeat split. }
  destruct (String.eqb (TestResult.result r0) "Skip"); [| done].
  injection Hcr as <-. simpl. by repeat split.
Qed.

(** *** What the loop logs *)

Lemma step_recognized_log (st : loop_state) (x : option TestResult.t) :
  (∀ r, x = Some r → recognized r = true) →
  log (convert_step self env st x) = log st.
Proof.
  intros Hrec. destruct x as [r |]; [| done].
  specialize (Hrec r eq_refl). unfold convert_step.
  destruct (convert_cases self env r)
    as [(_ & n & s & -> & -> & _) | [? _]]; [| congruence].
  destruct (negb _); simpl; [by rewrite app_nil_r |].
  destruct (od_mem _ _); simpl; by rewrite app_nil_r.
Qed.

Lemma step_unrecognized_log (st : loop_state) (r : TestResult.t) :
  recognized r = false →
  ∃ w, w ≠ [] ∧ Forall (λ e, e = unexpected_result r) w
       ∧ log (convert_step self env st (Some r)) = log st ++ w.
Proof.
  intros Hrec. destruct (is_data_driven_test (TestResult.name r)) eqn:H.
  - by destruct (step_unrecognized self env st r H Hrec) as (_ & _ & _ & Hw).
  - destruct (unrecognized_standalone_kept self env st r H Hrec)
      as (_ & _ & Hl).
    exists [unexpected_result r]. split; [done |]. split; [| done].
    by repeat constructor.
Qed.

Lemma log_run (rs : list (option TestResult.t)) (st : loop_state) :
  ∃ w,
    log (run_from self env st rs) = log st ++ w
    ∧ Forall (λ e, ∃ r, Some r ∈ rs ∧ recognized r = false
                        ∧ e = unexpected_result r) w
    ∧ ∀ r, Some r ∈ rs → recognized r = false → unexpected_result r ∈ w.
Proof.
  revert st. induction rs as [| x rs IH]; intros st.
  { exists []. split; [by rewrite app_nil_r |]. split; [constructor |].
    by intros r ?%elem_of_nil. }
  rewrite run_from_cons.
  destruct (IH (convert_step self env st x)) as (w & Hw & Hall & Hcov).
  assert (Hall' : Forall (λ e, ∃ r, Some r ∈ x :: rs ∧ recognized r = false
                                    ∧ e = unexpected_result r) w).
  { eapply Forall_impl; [exact Hall |]. intros e (r & ? & ? & ?).
    exists r. split; [by right | done]. }
  destruct x as [r |]; [destruct (recognized r) eqn:Hrec |].
  - exists w. rewrite Hw, step_recognized_log by (by intros ? [= <-]).
    split; [done |]. split; [done |].
    intros r' [[= ->] | Hr']%elem_of_cons Hrec'; [congruence | by apply Hcov].
  - destruct (step_unrecognized_log st r Hrec) as (w0 & Hne & Hw0 & Hlog).
    exists (w0 ++ w). rewrite Hw, Hlog, app_assoc. split; [done |]. split.
    + apply Forall_app. split; [| done].
      eapply Forall_impl; [exact Hw0 |]. intros e ->.
      exists r. split; [by left | done].
    + intros r' [[= ->] | Hr']%elem_of_cons Hrec'; apply elem_of_app.
      * left. destruct w0 as [| e w0]; [done |].
        apply Forall_cons in Hw0 as [-> _]. by left.
      * right. by apply Hcov.
  - exists w. rewrite Hw, step_recognized_log by done.
    split; [done |]. split; [done |].
    intros r' [[=] | Hr']%elem_of_cons Hrec'. by apply Hcov.
Qed.

(** X8. The log of [convert_results] starts with the count of the input
    entries; what follows are warnings, each one naming a record of the
    batch with an unknown outcome value, and every such record is named by
    at least one of them. A batch without such records logs the count
    only. *)
Theorem warnings_name_skipped_records (rs : list (option TestResult.t)) :
  ∃ w,
    log (convert_loop self env rs)
    = (DEBUG, "Count of unconverted_results: " +:+ pretty (length rs)) :: w
    ∧ Forall (λ e, ∃ r, Some r ∈ rs ∧ recognized r = false
                        ∧ e = unexpected_result r) w
    ∧ (∀ r, Some r ∈ rs → recognized r = false → unexpected_result r ∈ w)
    ∧ ((∀ r, Some r ∈ rs → recognized r = true) → w = []).
Proof.
  destruct (log_run rs (initial_state rs)) as (w & Hw & Hall & Hcov).
  exists w. split; [exact Hw |]. split; [done |]. split; [done |].
  intros Hrec. destruct w as [| e w]; [done |].
  apply Forall_cons in Hall as [(r & Hr & Hf & _) _].
  rewrite (Hrec r Hr) in Hf. done.
Qed.


End grouping_more.

(** * Further properties of names *)

Lemma split1_shape (sep : ascii) (s : string) :
  ∃ h t, split1 sep s = h :: t
         ∧ (sep ∉ String.list_ascii_of_string h)
         ∧ (∃ q, s = h +:+ q).
Proof.
  induction s as [| c s (h & t & Hs & Hh & q & Hq)]; simpl.
  - exists EmptyString, []. split; [done |].
    split; [apply not_elem_of_nil | by exists EmptyString].
  - destruct (Ascii.eqb_spec c sep) as [-> | Hne].
    + exists EmptyString, [s]. split; [done |].
      split; [apply not_elem_of_nil | by exists (String sep s)].
    + rewrite Hs. exists (String c h), t. split; [done |]. split.
      * simpl. rewrite not_elem_of_cons. split; [congruence | done].
      * exists q. change (String c s = String c (h +:+ q)). by f_equal.
Qed.

(** X9. The base name is a prefix of the name, contains no opening
    parenthesis, and is its own base name. *)
Theorem base_name_shape (name : string) :
  (∃ q, name = get_ddt_base_name name +:+ q)
  ∧ ("("%char ∉ String.list_ascii_of_string (get_ddt_base_name name))
  ∧ get_ddt_base_name (get_ddt_base_name name) = get_ddt_base_name name.
Proof.
  unfold get_ddt_base_name.
  destruct (split1_shape "(" name) as (h & t & -> & Hh & Hq). simpl.
  split; [done |]. split; [done |]. by rewrite split1_absent.
Qed.

(** * Further properties of the attachment pass *)

Section publishing_more.
Context (self : self_t) (env : environ) (b64encode : string → string).

Implicit Types (order : gmap string (list string))
  (rwa : gmap string TestResult.t) (p : TestCaseResult.t).

(** X10. The attachment map holds, under a name, the last record of the
    batch that bears the name and has attachments; so a value of the map
    is a record of the batch, stored under its own name, with at least one
    attachment, and a name that no such record bears is not a key. *)
Theorem attachment_map_last_wins (rs : list (option TestResult.t))
  (k : string) :
  results_with_attachments rs !! k
  = last (filter (λ r, TestResult.name r = k ∧ TestResult.attachments r ≠ [])
            (records rs))
  ∧ (∀ r, results_with_attachments rs !! k = Some r →
          Some r ∈ rs ∧ TestResult.name r = k
          ∧ TestResult.attachments r ≠ []).
Proof.
  split; [apply attachment_map_lookup |].
  intros r. apply attachment_map_value.
Qed.

(** X11. An exception ends the pass where it is raised: what was uploaded
    for the rows before stays uploaded, and the rows after the raising one
    are not looked at. *)
Theorem exception_ends_pass order rwa (before after : list TestCaseResult.t)
  p (t1 t : list effect) (e : exn) :
  publish_loop self b64encode order rwa before = (t1, None) →
  publish_step self b64encode order rwa p = (t, Some e) →
  publish_loop self b64encode order rwa (before ++ p :: after)
  = (t1 ++ t, Some e).
Proof.
  intros Hbefore Hp. rewrite publish_loop_app, Hbefore. simpl. by rewrite Hp.
Qed.

Lemma handle_attachments_calls order rwa p (e : effect) (c : client_call) :
  e ∈ (handle_attachments self b64encode order rwa p).1 →
  e = Call c →
  call_result_id c = TestCaseResult.id p.
Proof.
  unfold handle_attachments. intros He ->.
  destruct (rwa !! _) as [result |].
  - apply until_raise_elem, elem_of_cons in He as [[=] | He].
    apply list_elem_of_fmap in He as (a & Ha & _).
    unfold send_attachment in Ha.
    destruct (TestResultAttachment.text a); [| done]. by injection Ha as ->.
  - destruct (TestCaseResult.sub_results p) as [subs |];
      [| by apply elem_of_nil in He].
    destruct (order !! _) as [names |]; [| by apply elem_of_nil in He].
    apply until_raise_elem, elem_of_app in He as [He | He].
    + destruct (bool_decide _); [| by apply elem_of_nil in He].
      by apply list_elem_of_singleton in He.
    + apply list_elem_of_In, in_flat_map in He as ([nm sub] & _ & He).
      apply list_elem_of_In in He.
      destruct (rwa !! nm) as [result |]; [| by apply elem_of_nil in He].
      apply list_elem_of_fmap in He as (a & Ha & _).
      unfold send_sub_attachment in Ha.
      destruct (TestResultAttachment.text a); [| done]. by injection Ha as ->.
Qed.

(** X12. Every call of the pass uploads against a published row that was
    not rejected: the identifier it is given is the one of such a row of
    the list. *)
Theorem uploads_target_accepted_rows order rwa
  (published : list TestCaseResult.t) (e : effect) (c : client_call) :
  e ∈ (publish_loop self b64encode order rwa published).1 →
  e = Call c →
  ∃ p, p ∈ published ∧ rejected p = false
       ∧ call_result_id c = TestCaseResult.id p.
Proof.
  induction published as [| p l IH]; simpl; [by intros ?%elem_of_nil |].
  intros He Hc.
  assert (Hp : e ∈ (publish_step self b64encode order rwa p).1 →
               ∃ p', p' ∈ p :: l ∧ rejected p' = false
                     ∧ call_result_id c = TestCaseResult.id p').
  { unfold publish_step. destruct (rejected p) eqn:Hrej;
      [by intros ?%elem_of_nil |].
    intros He'. exists p. split; [by left |]. split; [done |].
    by apply (handle_attachments_calls order rwa p e c). }
  destruct (publish_step self b64encode order rwa p) as [t [e0 |]];
    [by apply Hp |].
  destruct (publish_loop self b64encode order rwa l) as [t' e'].
  simpl in *. apply elem_of_app in He as [He | He]; [by apply Hp |].
  destruct (IH He Hc) as (p' & Hp' & Hrej & Hid).
  exists p'. split; [by right | done].
Qed.

Lemma flat_map_nil {A B : Type} (f : A → list B) (l : list A) :
  (∀ x, x ∈ l → f x = []) → flat_map f l = [].
Proof.
  induction l as [| a l IH]; intros Hf; [done |]. simpl.
  rewrite (Hf a) by (by left). apply IH. intros x Hx. apply Hf. by right.
Qed.

Lemma handle_attachments_empty_map order p (e : effect) :
  e ∈ (handle_attachments self b64encode order ∅ p).1 →
  e = Log length_warning.
Proof.
  unfold handle_attachments. rewrite lookup_empty.
  destruct (TestCaseResult.sub_results p) as [subs |];
    [| by intros ?%elem_of_nil].
  destruct (order !! _) as [names |]; [| by intros ?%elem_of_nil].
  rewrite flat_map_nil, app_nil_r.
  - destruct (bool_decide _); simpl; [| by intros ?%elem_of_nil].
    by intros ?%list_elem_of_singleton.
  - intros [nm sub] _. by rewrite lookup_empty.
Qed.

Lemma publish_loop_empty_map order (published : list TestCaseResult.t)
  (e : effect) :
  e ∈ (publish_loop self b64encode order ∅ published).1 →
  e = Log length_warning.
Proof.
  induction published as [| p l IH]; simpl; [by intros ?%elem_of_nil |].
  assert (Hp : e ∈ (publish_step self b64encode order ∅ p).1 →
               e = Log length_warning).
  { unfold publish_step.
    destruct (rejected p); [by intros ?%elem_of_nil |].
    apply handle_attachments_empty_map. }
  destruct (publish_step self b64encode order ∅ p) as [t [e0 |]];
    [exact Hp |].
  destruct (publish_loop self b64encode order ∅ l) as [t' e'].
  simpl in *. intros [He | He]%elem_of_app; [by apply Hp | by apply IH].
Qed.

Lemma no_attachments_empty_map (rs : list (option TestResult.t)) :
  (∀ r, Some r ∈ rs → TestResult.attachments r = []) →
  results_with_attachments rs = ∅.
Proof.
  intros Hall. apply map_eq. intros k.
  rewrite attachment_map_lookup, lookup_empty, filter_none; [done |].
  apply Forall_forall. intros r (o & Ho & Hr)%list_elem_of_omap [_ Hne].
  simpl in Hr. subst o. by apply Hne, Hall.
Qed.

(** X13. A batch in which no record has attachments leads to no attachment
    call, whatever rows the service answers to the submission: after the
    submission of the nodes, the pass of [upload_batch] calls neither
    [create_test_result_attachment] nor [create_test_sub_result_attachment],
    and the only effect it can have is the length warning. It raises no
    [TypeError]; a [KeyError] it raises names an accepted row with
    sub-results whose name the ordering index does not hold, so it raises
    nothing when every answered row bears the name of a submitted node. *)
Theorem no_attachments_no_upload
  (service : list (option TestCaseResult.t) → string → option Z
             → list TestCaseResult.t)
  (rs : list (option TestResult.t)) :
  (∀ r, Some r ∈ rs → TestResult.attachments r = []) →
  (∀ e, e ∈ (upload_batch self env b64encode service rs).1 →
        e = Log length_warning)
  ∧ (∀ c, Call c ∉ (upload_batch self env b64encode service rs).1)
  ∧ (upload_batch self env b64encode service rs).2 ≠ Some TypeError
  ∧ (∀ k, (upload_batch self env b64encode service rs).2
          = Some (KeyError k) →
          ∃ p, p ∈ service (convert_results self env rs).1
                     (team_project self) (test_run_id self)
               ∧ rejected p = false
               ∧ TestCaseResult.automated_test_name p = k
               ∧ is_Some (TestCaseResult.sub_results p)
               ∧ (convert_results self env rs).2 !! k = None)
  ∧ ((∀ p, p ∈ service (convert_results self env rs).1
                 (team_project self) (test_run_id self) →
           ∃ n, Some n ∈ (convert_results self env rs).1
                ∧ TestCaseResult.automated_test_name p
                  = TestCaseResult.automated_test_name n) →
     (upload_batch self env b64encode service rs).2 = None).
Proof.
  intros Hall.
  assert (Htext : attachments_have_text rs).
  { intros r a Hr Ha. rewrite (Hall r Hr) in Ha. by apply elem_of_nil in Ha. }
  assert (Hlog : ∀ e, e ∈ (upload_batch self env b64encode service rs).1 →
                      e = Log length_warning).
  { intros e. rewrite upload_batch_unfold.
    rewrite (no_attachments_empty_map rs Hall).
    apply publish_loop_empty_map. }
  split; [exact Hlog |]. split.
  { intros c Hc. by specialize (Hlog _ Hc). }
  split; [by apply upload_batch_no_type_error |]. split.
  - intros k. rewrite upload_batch_unfold.
    intros (p & Hp & Hrej & Hx)%publish_loop_raised.
    apply handle_attachments_raised in Hx
      as [([= ->] & _ & Hsub & Hnone) | [[=] _]].
    by exists p.
  - intros Hecho.
    destruct (upload_batch self env b64encode service rs).2
      as [[k |] |] eqn:Hx; [| | done].
    + by destruct (upload_batch_no_key_error self env b64encode service rs k
                     Hecho).
    + by destruct (upload_batch_no_type_error self env b64encode service rs
                     Htext).
Qed.

(** X14. When every row the service answers bears the name of a node that
    was submitted, the whole of [upload_batch] raises no [KeyError]: the
    ordering index built by [convert_results] has an entry for every such
    name. So it raises nothing at all when, besides, every attachment of
    the batch has text. *)
Theorem echoed_names_never_miss
  (service : list (option TestCaseResult.t) → string → option Z
             → list TestCaseResult.t)
  (rs : list (option TestResult.t)) :
  (∀ p, p ∈ service (convert_results self env rs).1
              (team_project self) (test_run_id self) →
        ∃ n, Some n ∈ (convert_results self env rs).1
             ∧ TestCaseResult.automated_test_name p
               = TestCaseResult.automated_test_name n) →
  (∀ k, (upload_batch self env b64encode service rs).2 ≠ Some (KeyError k))
  ∧ (attachments_have_text rs →
     (upload_batch self env b64encode service rs).2 = None).
Proof.
  intros Hecho. split.
  - intros k. by apply upload_batch_no_key_error.
  - intros Htext.
    destruct (upload_batch self env b64encode service rs).2
      as [[k |] |] eqn:Hx; [| | done].
    + by destruct (upload_batch_no_key_error self env b64encode service rs k
                     Hecho).
    + by destruct (upload_batch_no_type_error self env b64encode service rs
                     Htext).
Qed.





End publishing_more.

(** * Properties of the JUnit reader *)

Section junit_facts.
Context (float : string → option Q).

Lemma parse_testcase_inl (e : JUnit.element) (r : JUnit.result_record) :
  JUnit.parse_testcase float e = inl r →
  ∃ classname test_name time duration,
    JUnit.get "classname" e = Some classname
    ∧ JUnit.get "name" e = Some test_name
    ∧ JUnit.get "time" e = Some time
    ∧ float time = Some duration
    ∧ JUnit.name r = classname +:+ "." +:+ test_name
    ∧ JUnit.kind r = "junit"
    ∧ JUnit.type_name r = classname
    ∧ JUnit.method r = test_name
    ∧ JUnit.duration_seconds r = duration.
Proof.
  unfold JUnit.parse_testcase.
  destruct (JUnit.get "classname" e) as [classname |] eqn:Hc; [| done].
  destruct (JUnit.get "name" e) as [test_name |] eqn:Hn; [| done].
  destruct (JUnit.get "time" e) as [time |] eqn:Ht; [| done].
  destruct (float time) as [duration |] eqn:Hf; [| done].
  intros Hr. exists classname, test_name, time, duration.
  do 4 (split; [done |]).
  destruct (match JUnit.find "failure" e with
            | Some f => Some f
            | None => JUnit.find "error" e
            end);
    destruct (JUnit.find "skipped" e); simpl in Hr; injection Hr as <-;
    by repeat split.
Qed.

(** X16. The outcome of a record read from a test case is "Skip" when the
    test case has a skipped child, else "Fail" when it has a failure or
    error child, else "Pass"; a skipped record always has a skip reason
    (the empty string when the child has no text) and no other record has
    one. *)
Theorem junit_outcome (e : JUnit.element) (r : JUnit.result_record) :
  JUnit.parse_testcase float e = inl r →
  (JUnit.result r = "Skip" ↔ is_Some (JUnit.find "skipped" e))
  ∧ (JUnit.result r = "Fail"
     ↔ JUnit.find "skipped" e = None
       ∧ (is_Some (JUnit.find "failure" e) ∨ is_Some (JUnit.find "error" e)))
  ∧ (JUnit.result r = "Pass"
     ↔ JUnit.find "skipped" e = None ∧ JUnit.find "failure" e = None
       ∧ JUnit.find "error" e = None)
  ∧ (∀ s, JUnit.find "skipped" e = Some s →
          JUnit.skip_reason r
          = Some (match JUnit.text s with
                  | Some x => x
                  | None => EmptyString
                  end))
  ∧ (JUnit.find "skipped" e = None → JUnit.skip_reason r = None).
Proof.
  unfold JUnit.parse_testcase.
  destruct (JUnit.get "classname" e) as [classname |]; [| done].
  destruct (JUnit.get "name" e) as [test_name |]; [| done].
  destruct (JUnit.get "time" e) as [time |]; [| done].
  destruct (float time) as [duration |]; [| done].
  destruct (JUnit.find "failure" e) as [f |];
    destruct (JUnit.find "error" e) as [f' |];
    destruct (JUnit.find "skipped" e) as [s |];
    intros [= <-]; simpl; rewrite ?is_Some_alt;
    (repeat split; try (intros s' [= <-]); try done;
     intuition (try congruence; try discriminate)).
Qed.

(** X17. The details of a failure are taken from the failure child, and
    from the error child only when there is no failure child; captured
    output becomes attachments only then, standard output before standard
    error; a test case with neither child yields a record without failure
    message, stack trace, exception type or attachments, whatever output
    it captured. A skipped child does not remove any of this. *)
Theorem junit_failure_details (e : JUnit.element) (r : JUnit.result_record) :
  JUnit.parse_testcase float e = inl r →
  (∀ f, JUnit.find "failure" e = Some f
        ∨ (JUnit.find "failure" e = None ∧ JUnit.find "error" e = Some f) →
        JUnit.exception_type r = JUnit.get "type" f
        ∧ JUnit.failure_message r = JUnit.get "message" f
        ∧ JUnit.stack_trace r = JUnit.text f
        ∧ JUnit.attachments r
          = match JUnit.find "system-out" e with
            | Some o =>
                [JUnit.mk_attachment "Console_Output.log" (JUnit.text o)]
            | None => []
            end
            ++ match JUnit.find "system-err" e with
               | Some o =>
                   [JUnit.mk_attachment "Error_Output.log" (JUnit.text o)]
               | None => []
               end)
  ∧ (JUnit.find "failure" e = None → JUnit.find "error" e = None →
     JUnit.exception_type r = None ∧ JUnit.failure_message r = None
     ∧ JUnit.stack_trace r = None ∧ JUnit.attachments r = []).
Proof.
  unfold JUnit.parse_testcase.
  destruct (JUnit.get "classname" e) as [classname |]; [| done].
  destruct (JUnit.get "name" e) as [test_name |]; [| done].
  destruct (JUnit.get "time" e) as [time |]; [| done].
  destruct (float time) as [duration |]; [| done].
  destruct (JUnit.find "failure" e) as [f0 |];
    destruct (JUnit.find "error" e) as [f1 |];
    destruct (JUnit.find "skipped" e) as [s |];
    intros [= <-]; simpl; split; try done;
    intros f [[= <-] | [? [= <-]]]; done.
Qed.

(** X18. A test case is fatal for the stream exactly when it lacks one of
    the attributes classname, name and time ([TypeError]) or when its time
    is not a number ([ValueError]). *)
Theorem junit_fatal_testcases (e : JUnit.element) :
  (JUnit.parse_testcase float e = inr JUnit.TypeError
   ↔ JUnit.get "classname" e = None ∨ JUnit.get "name" e = None
     ∨ JUnit.get "time" e = None)
  ∧ (JUnit.parse_testcase float e = inr JUnit.ValueError
     ↔ is_Some (JUnit.get "classname" e) ∧ is_Some (JUnit.get "name" e)
       ∧ ∃ time, JUnit.get "time" e = Some time ∧ float time = None).
Proof.
  unfold JUnit.parse_testcase.
  destruct (JUnit.get "classname" e) as [classname |];
    destruct (JUnit.get "name" e) as [test_name |];
    destruct (JUnit.get "time" e) as [time |];
    rewrite ?is_Some_alt; try (split; split; intros H; [tauto | | done |];
                               [by destruct H as [? | [? | ?]]
                               | by destruct H as (? & ? & ? & ? & ?)]);
    try (split; split; intros H; [tauto | done | done |];
         by destruct H as (? & ? & ? & ? & ?)).
  destruct (float time) as [duration |] eqn:Hf.
  - destruct (match JUnit.find "failure" e with
              | Some f => Some f
              | None => JUnit.find "error" e
              end) as [f |]; destruct (JUnit.find "skipped" e); simpl;
      (split; split; intros H; [done | by destruct H as [? | [? | ?]] | done |]);
      destruct H as (_ & _ & t & [= <-] & ?); congruence.
  - split; split; intros H; [done | by destruct H as [? | [? | ?]] | | done].
    do 2 (split; [done |]). by exists time.
Qed.

Lemma read_events_stream (l : list JUnit.element)
  (rs : list JUnit.result_record) (x : option JUnit.parse_exn) :
  Forall (λ e, JUnit.tag e = "testcase") l →
  JUnit.read_events float l = (rs, x) →
  ∃ good,
    Forall2 (λ e r, JUnit.parse_testcase float e = inl r) good rs
    ∧ match x with
      | None => l = good
      | Some ex =>
          ∃ bad rest, l = good ++ bad :: rest
                      ∧ JUnit.parse_testcase float bad = inr ex
      end.
Proof.
  intros Hl. revert rs x. induction Hl as [| e l He _ IH]; intros rs x; simpl.
  - intros [= <- <-]. by exists [].
  - rewrite He. simpl.
    destruct (JUnit.parse_testcase float e) as [r | ex] eqn:Hp.
    + destruct (JUnit.read_events float l) as [rs' x'].
      intros [= <- <-]. destruct (IH rs' x' eq_refl) as (good & HF & Hx).
      exists (e :: good). split; [by constructor |].
      destruct x' as [ex |]; [| by rewrite Hx].
      destruct Hx as (bad & rest & -> & Hbad). by exists bad, rest.
    + intros [= <- <-]. exists []. split; [constructor |]. by exists e, l.
Qed.

Lemma read_events_testcases (l : list JUnit.element) :
  JUnit.read_events float l
  = JUnit.read_events float (filter (λ e, JUnit.tag e = "testcase") l).
Proof.
  induction l as [| e l IH]; [done |]. simpl.
  destruct (String.eqb_spec (JUnit.tag e) "testcase") as [He | He].
  - rewrite filter_cons_True by done. simpl. rewrite He. simpl.
    by rewrite IH.
  - by rewrite filter_cons_False.
Qed.

(** X19. The reader yields a record for each test case of the report, in
    the order of the closing tags, up to the first test case that is
    fatal: without one, the records correspond one to one to the test
    cases; with one, the records of the test cases before it have been
    yielded when the exception is raised, and none of the later ones. A
    report without test cases yields nothing and raises nothing. *)
Theorem junit_stream (document : JUnit.element)
  (rs : list JUnit.result_record) (x : option JUnit.parse_exn) :
  JUnit.read_results float document = (rs, x) →
  (∃ good,
     Forall2 (λ e r, JUnit.parse_testcase float e = inl r) good rs
     ∧ match x with
       | None => JUnit.testcases document = good
       | Some ex =>
           ∃ bad rest, JUnit.testcases document = good ++ bad :: rest
                       ∧ JUnit.parse_testcase float bad = inr ex
       end)
  ∧ (JUnit.testcases document = [] → rs = [] ∧ x = None).
Proof.
  unfold JUnit.read_results, JUnit.testcases.
  rewrite read_events_testcases. intros Hread.
  destruct (read_events_stream _ rs x
              (proj2 (Forall_forall _ _)
                 (λ e He, proj1 (proj1 (list_elem_of_filter _ _ _) He)))
              Hread) as (good & HF & Hx).
  split; [by exists good |].
  intros Hnil. rewrite Hnil in Hx. destruct x as [ex |].
  - destruct Hx as (bad & rest & Hx & _). by destruct good.
  - subst good. by apply Forall2_nil_inv_l in HF.
Qed.

Lemma endswith_paren_cons (c : ascii) (s : string) :
  s ≠ EmptyString → endswith (String c s) ")" = endswith s ")".
Proof.
  intros Hs. cbn [endswith].
  destruct (String.eqb_spec (String c s) ")") as [[= _ ->] | _]; done.
Qed.

Lemma endswith_paren_app (p s : string) :
  s ≠ EmptyString → endswith (p +:+ s) ")" = endswith s ")".
Proof.
  intros Hs. induction p as [| c p IH]; [done |].
  change (String c p +:+ s) with (String c (p +:+ s)).
  rewrite endswith_paren_cons; [done |]. by destruct p, s.
Qed.

(** X20. A record read from a report is classified as a data-driven
    variant by the publisher exactly when the name attribute of its test
    case ends with a closing parenthesis: the class name in front of it
    has no influence. *)
Theorem junit_data_driven (e : JUnit.element) (r : JUnit.result_record) :
  JUnit.parse_testcase float e = inl r →
  is_data_driven_test (JUnit.name r) = is_data_driven_test (JUnit.method r).
Proof.
  intros (classname & test_name & _ & _ & _ & _ & _ & _ & -> & _ & _ & -> & _)
    %parse_testcase_inl.
  unfold is_data_driven_test.
  rewrite endswith_paren_app by done.
  change ("." +:+ test_name) with (String "." test_name).
  destruct test_name as [| c t]; [done |].
  by rewrite endswith_paren_cons.
Qed.

End junit_facts.

(** * From the reader to the publisher *)

Section reader_to_publisher.
Context (self : self_t) (env : environ) (float : string → option Q).

Lemma parse_testcase_recognized (e : JUnit.element)
  (p : JUnit.result_record) :
  JUnit.parse_testcase float e = inl p →
  recognized (JUnit.to_TestResult p) = true.
Proof.
  intros Hp. apply recognized_spec.
  change (TestResult.result (JUnit.to_TestResult p)) with (JUnit.result p).
  revert Hp. unfold JUnit.parse_testcase.
  destruct (JUnit.get "classname" e) as [classname |]; [| done].
  destruct (JUnit.get "name" e) as [test_name |]; [| done].
  destruct (JUnit.get "time" e) as [time |]; [| done].
  destruct (float time) as [duration |]; [| done].
  destruct (match JUnit.find "failure" e with
            | Some f => Some f
            | None => JUnit.find "error" e
            end);
    destruct (JUnit.find "skipped" e); simpl; intros [= <-]; simpl; tauto.
Qed.

Lemma recognized_batch_all_nodes (rs : list (option TestResult.t))
  (o : option TestCaseResult.t) :
  (∀ r, Some r ∈ rs → recognized r = true) →
  o ∈ (convert_results self env rs).1 → is_Some o.
Proof.
  intros Hrec. unfold convert_results. simpl.
  intros [Ho | Ho]%elem_of_app.
  - apply list_elem_of_fmap in Ho as (n & -> & _). by eexists.
  - rewrite (inv_standalone _ _ _ _ (inv_convert_loop self env rs)) in Ho.
    apply list_elem_of_fmap in Ho as (r & -> & Hr).
    unfold standalone in Hr. apply list_elem_of_filter in Hr as [_ Hr].
    apply list_elem_of_omap in Hr as (x & Hx & Hid). simpl in Hid. subst x.
    destruct (convert_cases self env r)
      as [(_ & n & s & -> & _) | [Hf _]]; [by eexists |].
    rewrite (Hrec r Hx) in Hf. done.
Qed.

(** X21. A batch read from a JUnit report is converted without loss and
    without noise: every entry of the returned node list is a node, and
    the conversion logs nothing but the count. The reader only produces
    the three outcome values that the publisher knows. *)
Theorem junit_batch_converts_cleanly (document : JUnit.element)
  (parsed : list JUnit.result_record) (x : option JUnit.parse_exn) :
  JUnit.read_results float document = (parsed, x) →
  (∀ r, r ∈ JUnit.to_TestResult <$> parsed → recognized r = true)
  ∧ (∀ o, o ∈ (convert_results self env
                 (Some <$> (JUnit.to_TestResult <$> parsed))).1 → is_Some o)
  ∧ log (convert_loop self env (Some <$> (JUnit.to_TestResult <$> parsed)))
    = [(DEBUG, "Count of unconverted_results: "
               +:+ pretty (length (JUnit.to_TestResult <$> parsed)))].
Proof.
  intros Hread.
  unfold JUnit.read_results in Hread.
  rewrite read_events_testcases in Hread.
  destruct (read_events_stream float _ parsed x
              (proj2 (Forall_forall _ _)
                 (λ e He, proj1 (proj1 (list_elem_of_filter _ _ _) He)))
              Hread) as (good & Hgood & _).
  assert (Hrec : ∀ r, r ∈ JUnit.to_TestResult <$> parsed →
                      recognized r = true).
  { intros r (p & -> & (i & Hp)%list_elem_of_lookup)%list_elem_of_fmap.
    destruct (Forall2_lookup_r _ _ _ _ _ Hgood Hp) as (e & _ & He).
    by apply (parse_testcase_recognized e p). }
  assert (Hrec' : ∀ r, Some r ∈ Some <$> (JUnit.to_TestResult <$> parsed) →
                       recognized r = true).
  { intros r (r' & [= <-] & Hr)%list_elem_of_fmap. by apply Hrec. }
  split; [done |]. split.
  - intros o. by apply recognized_batch_all_nodes.
  - destruct (log_run self env (Some <$> (JUnit.to_TestResult <$> parsed))
                (initial_state (Some <$> (JUnit.to_TestResult <$> parsed))))
      as (w & Hw & Hall & _).
    unfold convert_loop. rewrite Hw. simpl. rewrite !length_fmap.
    destruct w as [| e0 w]; [done |].
    apply Forall_cons in Hall as [(r & Hr & Hf & _) _].
    rewrite (Hrec' r Hr) in Hf. done.
Qed.

End reader_to_publisher.

(** * The further properties on concrete inputs *)

(** X1 on a [None] entry between two variants. *)
Lemma skipped_entries_leave_no_trace_witness :
  convert_results self0 env0
    ([Some (record "A(1)" "Pass" [])] ++ None
     :: [Some (record "A(2)" "Fail" [])])
  = convert_results self0 env0
      ([Some (record "A(1)" "Pass" [])] ++ [Some (record "A(2)" "Fail" [])]).
Proof.
  apply (skipped_entries_leave_no_trace self0 env0). by left.
Defined.

(** X2 on [collision_batch]: the record A comes after a variant of A. *)
Lemma standalone_record_appended_witness :
  convert_results self0 env0
    ([Some (record "A(1)" "Pass" [])] ++ [Some (record "A" "Pass" [])])
  = ((convert_results self0 env0 [Some (record "A(1)" "Pass" [])]).1
       ++ [(convert_result self0 env0 (record "A" "Pass" [])).1],
     <["A" := []]>
       (convert_results self0 env0 [Some (record "A(1)" "Pass" [])]).2).
Proof.
  apply (standalone_record_appended self0 env0
           [Some (record "A(1)" "Pass" [])] (record "A" "Pass" [])).
  reflexivity.
Defined.

Lemma spec_parent_returned :
  Some spec_parent ∈ (convert_results self0 env0 spec_batch).1.
Proof. vm_compute. left. Qed.

(** X4 on the parent node of the specification's example. *)
Lemma sub_results_follow_variants_witness :
  ∃ subs,
    TestCaseResult.sub_results spec_parent = Some subs
    ∧ Forall2 (λ r s, convert_to_sub_test env0 r = (Some s, []))
        (variants "A" spec_batch) subs
    ∧ TestSubResult.display_name <$> subs
      = TestResult.name <$> variants "A" spec_batch
    ∧ ((∀ r, r ∈ standalone spec_batch → TestResult.name r ≠ "A") →
       (convert_results self0 env0 spec_batch).2 !! "A"
       = Some (TestSubResult.display_name <$> subs)).
Proof.
  apply (sub_results_follow_variants self0 env0 spec_batch spec_parent).
  - exact spec_parent_returned.
  - reflexivity.
Defined.

(** X5 on the failing variant of the specification's example. *)
Lemma accepted_records_kept_witness :
  ∃ n subs s,
    Some n ∈ (convert_results self0 env0 spec_batch).1
    ∧ TestCaseResult.automated_test_name n = "A"
    ∧ TestCaseResult.sub_results n = Some subs
    ∧ s ∈ subs
    ∧ convert_to_sub_test env0 (record "A(2)" "Fail" []) = (Some s, []).
Proof.
  apply (accepted_records_kept self0 env0 spec_batch
           (record "A(2)" "Fail" [])).
  - right. left.
  - reflexivity.
Defined.

(** X7 on the parent node of the specification's example: "Failed", with
    the title and duration of A(1) and no error message. *)
Lemma parent_keeps_first_variant_witness :
  ∃ r0 cr,
    head (variants "A" spec_batch) = Some r0
    ∧ convert_result self0 env0 r0 = (Some cr, [])
    ∧ TestCaseResult.test_case_title spec_parent = TestResult.name r0
    ∧ TestCaseResult.automated_test_type spec_parent = TestResult.kind r0
    ∧ TestCaseResult.automated_test_storage spec_parent
      = work_item_name self0
    ∧ TestCaseResult.duration_in_ms spec_parent = duration_ms r0
    ∧ TestCaseResult.error_message spec_parent
      = TestCaseResult.error_message cr
    ∧ TestCaseResult.stack_trace spec_parent = TestCaseResult.stack_trace cr
    ∧ TestCaseResult.comment spec_parent = comment env0
    ∧ (TestResult.result r0 = "Pass" →
       TestCaseResult.error_message spec_parent = None
       ∧ TestCaseResult.stack_trace spec_parent = None).
Proof.
  apply (parent_keeps_first_variant self0 env0 spec_batch spec_parent).
  - exact spec_parent_returned.
  - reflexivity.
Defined.

(** X11 on a rejected row, then [orphan_row], then the parent row of A. *)
Lemma exception_ends_pass_witness :
  publish_loop self0 plain two_variants_order variant_attachments
    ([rejected_row] ++ orphan_row :: [parent_row])
  = ([] ++ [], Some (KeyError "Z")).
Proof.
  apply (exception_ends_pass self0 plain two_variants_order
           variant_attachments [rejected_row] [parent_row] orphan_row);
    reflexivity.
Defined.

(** X12 on the upload made for the parent row of A. *)
Lemma uploads_target_accepted_rows_witness :
  ∃ p, p ∈ [rejected_row; parent_row] ∧ rejected p = false
       ∧ Some 7 = TestCaseResult.id p.
Proof.
  apply (uploads_target_accepted_rows self0 plain two_variants_order
           variant_attachments [rejected_row; parent_row]
           (Call (create_test_sub_result_attachment "Console_Output.log"
                    "variant" "public" (Some 42) (Some 7) (Some 1)))
           (create_test_sub_result_attachment "Console_Output.log"
              "variant" "public" (Some 42) (Some 7) (Some 1))).
  - vm_compute. right. left.
  - reflexivity.
Defined.

Lemma echo_service_names (nodes : list (option TestCaseResult.t))
  (project : string) (run_id : option Z) (p : TestCaseResult.t) :
  p ∈ echo_service nodes project run_id →
  ∃ n, Some n ∈ nodes
       ∧ TestCaseResult.automated_test_name p
         = TestCaseResult.automated_test_name n.
Proof.
  unfold echo_service. intros (i & Hi)%list_elem_of_lookup.
  rewrite list_lookup_imap in Hi.
  destruct (omap id nodes !! i) as [n |] eqn:Hn; [| done].
  injection Hi as <-. exists n. split; [| done].
  apply list_elem_of_lookup_2, list_elem_of_omap in Hn as (o & Ho & Hid).
  simpl in Hid. by subst o.
Qed.

Lemma attachment_batch_has_text : attachments_have_text attachment_batch.
Proof.
  intros r a Hr Ha. unfold attachment_batch in Hr.
  repeat (apply elem_of_cons in Hr as [[= ->] | Hr]);
    [| | by apply elem_of_nil in Hr]; simpl in Ha;
    apply list_elem_of_singleton in Ha as ->; by eexists.
Qed.

(** X13 on the specification's example, echoed by the service: no
    attachment call, and nothing raised. *)
Lemma no_attachments_no_upload_witness :
  (∀ c, Call c ∉ (upload_batch self0 env0 plain echo_service spec_batch).1)
  ∧ (upload_batch self0 env0 plain echo_service spec_batch).2 = None.
Proof.
  destruct (no_attachments_no_upload self0 env0 plain echo_service spec_batch)
    as (_ & Hcall & _ & _ & Hnone).
  - intros r Hr.
    apply elem_of_cons in Hr as [[= ->] | Hr]; [reflexivity |].
    apply elem_of_cons in Hr as [[= ->] | Hr]; [reflexivity |].
    apply elem_of_cons in Hr as [[= ->] | Hr]; [reflexivity |].
    by apply elem_of_nil in Hr.
  - split; [exact Hcall |]. apply Hnone.
    intros p. apply echo_service_names.
Defined.

(** X14 on [attachment_batch] with the service that echoes every node. *)
Lemma echoed_names_never_miss_witness :
  (upload_batch self0 env0 plain echo_service attachment_batch).2 = None.
Proof.
  apply (echoed_names_never_miss self0 env0 plain echo_service
           attachment_batch).
  - intros p. apply echo_service_names.
  - exact attachment_batch_has_text.
Defined.


(** The example report read in full. *)
Example report_read :
  JUnit.read_results float0 report
  = ([JUnit.mk_result "Suite.ok" "junit" "Suite" "ok" (Qmake 1 2) "Pass"
        None None None None [];
      JUnit.mk_result "Suite.case(x: 1)" "junit" "Suite" "case(x: 1)"
        (Qmake 2 1) "Fail" (Some "AssertionError") (Some "boom")
        (Some "trace") None
        [JUnit.mk_attachment "Console_Output.log" (Some "out");
         JUnit.mk_attachment "Error_Output.log" (Some "err")];
      JUnit.mk_result "Suite.later" "junit" "Suite" "later" (Qmake 2 1)
        "Skip" None (Some "late") None (Some EmptyString) []],
     None).
Proof. vm_compute. reflexivity. Qed.

(** X16 on [skipped_case]: an error child and a skipped child. *)
Lemma junit_outcome_witness :
  JUnit.result
    (JUnit.mk_result "Suite.later" "junit" "Suite" "later" (Qmake 2 1)
       "Skip" None (Some "late") None (Some EmptyString) [])
  = "Skip"
  ↔ is_Some (JUnit.find "skipped" skipped_case).
Proof.
  refine (proj1 (junit_outcome float0 skipped_case _ _)).
  vm_compute. reflexivity.
Defined.

(** X17 on [failing_case]: a failure child and an error child. *)
Lemma junit_failure_details_witness :
  JUnit.failure_message
    (JUnit.mk_result "Suite.case(x: 1)" "junit" "Suite" "case(x: 1)"
       (Qmake 2 1) "Fail" (Some "AssertionError") (Some "boom")
       (Some "trace") None
       [JUnit.mk_attachment "Console_Output.log" (Some "out");
        JUnit.mk_attachment "Error_Output.log" (Some "err")])
  = JUnit.get "message"
      (el "failure" [("type", "AssertionError"); ("message", "boom")]
         (Some "trace") []).
Proof.
  refine (proj1 (proj2 (proj1 (junit_failure_details float0 failing_case _ _)
                          _ _))).
  - vm_compute. reflexivity.
  - left. vm_compute. reflexivity.
Defined.

(** X19 on [broken_report]: the first test case is yielded, the second has
    no time attribute, the third is never read. *)
Lemma junit_stream_witness :
  ∃ good,
    Forall2 (λ e r, JUnit.parse_testcase float0 e = inl r) good
      [JUnit.mk_result "Suite.ok" "junit" "Suite" "ok" (Qmake 1 2) "Pass"
         None None None None []]
    ∧ ∃ bad rest,
        JUnit.testcases broken_report = good ++ bad :: rest
        ∧ JUnit.parse_testcase float0 bad = inr JUnit.TypeError.
Proof.
  refine (proj1 (junit_stream float0 broken_report _ (Some JUnit.TypeError) _)).
  vm_compute. reflexivity.
Defined.

(** X20 on [failing_case]. *)
Lemma junit_data_driven_witness :
  is_data_driven_test "Suite.case(x: 1)" = is_data_driven_test "case(x: 1)".
Proof.
  refine (junit_data_driven float0 failing_case
            (JUnit.mk_result "Suite.case(x: 1)" "junit" "Suite" "case(x: 1)"
               (Qmake 2 1) "Fail" (Some "AssertionError") (Some "boom")
               (Some "trace") None
               [JUnit.mk_attachment "Console_Output.log" (Some "out");
                JUnit.mk_attachment "Error_Output.log" (Some "err")]) _).
  vm_compute. reflexivity.
Defined.

(** X21 on [report]. *)
Lemma junit_batch_converts_cleanly_witness :
  log (convert_loop self0 env0
         (Some <$> (JUnit.to_TestResult
                      <$> (JUnit.read_results float0 report).1)))
  = [(DEBUG, "Count of unconverted_results: "
             +:+ pretty (length (JUnit.to_TestResult
                                   <$> (JUnit.read_results float0 report).1)))].
Proof.
  refine (proj2 (proj2 (junit_batch_converts_cleanly self0 env0 float0 report
                          (JUnit.read_results float0 report).1 None _))).
  vm_compute. reflexivity.
Defined.

(** The reader on [silent_report]: the empty system-out element of the
    failing test case gives an attachment without text. *)
Example silent_report_read :
  TestResult.attachments <$> records silent_batch
  = [[TestResultAttachment.mk "Console_Output.log" None]; []].
Proof. vm_compute. reflexivity. Qed.
